(** * ZTP API web app: data model, validation and the CSV transforms

    A shallow embedding of [app.py]: the [validate] function, the
    flattening loop of [get_csv], the reconstruction loop of the CSV
    import handler, and the handlers' use of the [data.json] file. *)

From Stdlib Require Import List Bool Arith NArith ZArith Lia String Ascii.
From Stdlib Require Import Permutation DecimalString FinFun.
Import ListNotations.

Set Implicit Arguments.

(** ** Python strings

    A Python [str] is a sequence of Unicode code points. *)

Abbreviation pystr := (list N) (only parsing).

Definition py (s : string) : pystr :=
  map N_of_ascii (list_ascii_of_string s).

Fixpoint str_eqb (a b : pystr) : bool :=
  match a, b with
  | [], [] => true
  | x :: a', y :: b' => N.eqb x y && str_eqb a' b'
  | _, _ => false
  end.

(** [str.isspace] decides each code point with the interpreter's
    white-space table. *)
Definition cp_isspace (c : N) : bool :=
  ((9 <=? c) && (c <=? 13) || (28 <=? c) && (c <=? 32)
   || (c =? 133) || (c =? 160) || (c =? 5760)
   || (8192 <=? c) && (c <=? 8202)
   || (c =? 8232) || (c =? 8233) || (c =? 8239) || (c =? 8287)
   || (c =? 12288))%N.

(** [k.isspace()]: at least one character and all of them white space. *)
Definition isspace (k : pystr) : bool :=
  negb (Nat.eqb (List.length k) 0) && forallb cp_isspace k.

(** Truth value of a string: [not k] is [true] on the empty string. *)
Definition str_truthy (k : pystr) : bool :=
  match k with [] => false | _ => true end.

Definition STACK : pystr := Eval cbv in py "stack".
Definition SUBST : pystr := Eval cbv in py "subst".
Definition TRUE_TEXT : pystr := Eval cbv in py "True".
Definition FALSE_TEXT : pystr := Eval cbv in py "False".
Definition SLASH : N := Eval cbv in N_of_ascii "/".

(** ** Ordered dictionaries

    [OrderedDict]: an association list in insertion order.  Assigning to a
    key already present keeps its position and replaces its value. *)

Definition odict (V : Type) := list (pystr * V).

Fixpoint od_get {V} (k : pystr) (d : odict V) : option V :=
  match d with
  | [] => None
  | (k', v) :: r => if str_eqb k k' then Some v else od_get k r
  end.

Definition od_in {V} (k : pystr) (d : odict V) : bool :=
  match od_get k d with Some _ => true | None => false end.

Fixpoint od_set {V} (k : pystr) (v : V) (d : odict V) : odict V :=
  match d with
  | [] => [(k, v)]
  | (k', v') :: r =>
      if str_eqb k k' then (k, v) :: r else (k', v') :: od_set k v r
  end.

Definition od_keys {V} (d : odict V) : list pystr := map fst d.
Definition od_values {V} (d : odict V) : list V := map snd d.

(** [OrderedDict(pairs)]: the pairs are assigned one after the other. *)
Definition od_of_pairs {V} (ps : list (pystr * V)) : odict V :=
  fold_left (fun d p => od_set (fst p) (snd p) d) ps [].

(** [d.get(k, default)] *)
Definition od_get_default {V} (k : pystr) (d : odict V) (dflt : V) : V :=
  match od_get k d with Some v => v | None => dflt end.

(** ** Parsed JSON values

    What [json.load(..., object_pairs_hook=OrderedDict)] builds.  A float is
    carried by its [repr] text. *)

Unset Elimination Schemes.
Inductive json : Type :=
| JNull
| JBool (b : bool)
| JInt (z : Z)
| JFloat (repr : pystr)
| JStr (s : pystr)
| JArr (l : list json)
| JObj (o : list (pystr * json)).
Set Elimination Schemes.

(** [isinstance(v, OrderedDict)] *)
Definition is_odict (v : json) : bool :=
  match v with JObj _ => true | _ => false end.

(** ** Exceptions *)

Inductive reason : Type :=
| ExpectingArrayOfObjects
| InvalidStackShape
| InvalidSubstShape
| EmptyObjectNotAllowed
| EmptyKeyNotAllowed
| TooManyDefaults.

(** The message each [ValueError] of [validate] carries. *)
Definition reason_text (r : reason) : string :=
  match r with
  | ExpectingArrayOfObjects => "Expecting JSON array of objects"
  | InvalidStackShape => "Stack must be JSON object"
  | InvalidSubstShape => "Subst must be JSON object"
  | EmptyObjectNotAllowed => "Empty JSON object not allowed"
  | EmptyKeyNotAllowed => "Empty JSON keys not allowed"
  | TooManyDefaults => "Maximum of one object without stack key is allowed"
  end.

Inductive result (E A : Type) : Type :=
| Ok (a : A)
| Raise (e : E).
Arguments Ok {E A} a.
Arguments Raise {E A} e.

(** The exceptions the handlers can meet. *)
Inductive exn : Type :=
| ValueError (r : reason)  (* raised by [validate] *)
| JSONDecodeError          (* a [ValueError]: [json.load] on malformed text *)
| CsvValueError            (* a [ValueError]: [DictWriter] given a key
                              outside its field names *)
| IOError                  (* [open] failed *)
| AttributeError           (* attribute missing on the receiver *)
| StopIteration            (* [next] on an exhausted reader *).

(** ** validate *)

Module Validator.

(** [[len(v) for v in my.values() if isinstance(v, OrderedDict)]] *)
Definition num_obj (my : odict json) : list nat :=
  flat_map (fun v => match v with
                     | JObj o => [List.length o]
                     | _ => []
                     end) (od_values my).

(** [[k for k in my if not k or k.isspace()]] *)
Definition empty_keys (my : odict json) : list pystr :=
  filter (fun k => negb (str_truthy k) || isspace k) (od_keys my).

(** ['name' in my and not isinstance(my['name'], OrderedDict)] *)
Definition not_object_at (name : pystr) (my : odict json) : bool :=
  match od_get name my with
  | Some v => negb (is_odict v)
  | None => false
  end.

(** The body of the [for my in data] loop; [num_defaults] is threaded. *)
Definition check_entry (my : json) (num_defaults : nat)
  : result reason nat :=
  match my with
  | JObj my =>
      if not_object_at STACK my then Raise InvalidStackShape
      else if not_object_at SUBST my then Raise InvalidSubstShape
      else if existsb (Nat.eqb 0) (num_obj my)
           then Raise EmptyObjectNotAllowed
      else if negb (Nat.eqb (List.length (empty_keys my)) 0)
           then Raise EmptyKeyNotAllowed
      else if negb (od_in STACK my) then Ok (S num_defaults)
      else Ok num_defaults
  | _ => Raise ExpectingArrayOfObjects
  end.

Fixpoint validate_loop (data : list json) (num_defaults : nat)
  : result reason nat :=
  match data with
  | [] => Ok num_defaults
  | my :: rest =>
      match check_entry my num_defaults with
      | Ok n => validate_loop rest n
      | Raise e => Raise e
      end
  end.

Definition validate (data : json) : result reason unit :=
  match data with
  | JArr l =>
      match validate_loop l 0 with
      | Ok num_defaults =>
          if Nat.ltb 1 num_defaults then Raise TooManyDefaults else Ok tt
      | Raise e => Raise e
      end
  | _ => Raise ExpectingArrayOfObjects
  end.

End Validator.
Import Validator.

(** ** Flattening (the export path of [get_csv])

    The CSV text itself (delimiter, quoting, line ends) is the [csv]
    module's: the model stops at the rows of fields that [DictWriter] puts
    into the text and that [csv.reader] takes out of it again. *)

Module Flattener.

(** [for kk in dct[k].keys(): flat[str(k) + '/' + str(kk)] = dct[k][kk]] *)
Definition flatten_nested (k : pystr) (o : odict json) (flat : odict json)
  : odict json :=
  fold_left (fun flat p => od_set (k ++ SLASH :: fst p) (snd p) flat) o flat.

(** The body of [for k in dct.keys()]. *)
Definition flatten_key (flat : odict json) (p : pystr * json) : odict json :=
  match snd p with
  | JObj o => flatten_nested (fst p) o flat
  | v => od_set (fst p) v flat
  end.

(** [flat = OrderedDict()], then the loop over the keys of [dct]. *)
Definition flatten_entry (dct : odict json) : odict json :=
  fold_left flatten_key dct [].

(** [for dct in data]: every element of a validated collection is an
    [OrderedDict]; an element that is not has no [keys()]. *)
Definition entry_fields (e : json) : odict json :=
  match e with JObj dct => dct | _ => [] end.

Definition flat_data (data : list json) : list (odict json) :=
  map (fun e => flatten_entry (entry_fields e)) data.

(** [OrderedDict.fromkeys(columns)] *)
Definition od_fromkeys (ks : list pystr) : odict unit :=
  fold_left (fun d k => od_set k tt d) ks [].

(** The column names: every key of every row, first occurrence kept. *)
Definition columns (rows : list (odict json)) : list pystr :=
  od_keys (od_fromkeys (flat_map (@od_keys json) rows)).

(** [str(n)] of an integer. *)
Definition str_int (z : Z) : pystr :=
  py (DecimalString.NilZero.string_of_int (Z.to_int z)).

Section Writer.

(** [str(v)] of a list or of an [OrderedDict] is Python's [repr] of it. *)
Variable str_compound : json -> pystr.

(** What [csv.writer] writes for a value: a string as it is, [None] as
    the empty field, anything else through [str]. *)
Definition csv_field (v : json) : pystr :=
  match v with
  | JNull => []
  | JStr s => s
  | JBool true => TRUE_TEXT
  | JBool false => FALSE_TEXT
  | JInt z => str_int z
  | JFloat r => r
  | JArr _ | JObj _ => str_compound v
  end.

(** [DictWriter._dict_to_list] with [extrasaction='raise'] and
    [restval='']. *)
Definition dict_to_list (fieldnames : list pystr) (rowdict : odict json)
  : option (list pystr) :=
  if forallb (fun k => existsb (str_eqb k) fieldnames) (od_keys rowdict)
  then Some (map (fun key => csv_field
                               (od_get_default key rowdict (JStr [])))
                 fieldnames)
  else None.

Fixpoint writerows (fieldnames : list pystr) (rows : list (odict json))
  : option (list (list pystr)) :=
  match rows with
  | [] => Some []
  | r :: rest =>
      match dict_to_list fieldnames r with
      | Some cells =>
          match writerows fieldnames rest with
          | Some out => Some (cells :: out)
          | None => None
          end
      | None => None
      end
  end.

(** The table written to the buffer: the header row, then one row of
    fields per entry. *)
Definition export_table (data : list json)
  : option (list (list pystr)) :=
  let fd := flat_data data in
  let cols := columns fd in
  match writerows cols fd with
  | Some rows => Some (cols :: rows)
  | None => None
  end.

End Writer.

End Flattener.
Import Flattener.

(** ** Reconstruction (the import path of [POST /csv]) *)

Module Unflattener.

(** [k.split(sep)]: cut at every occurrence of the separator. *)
Fixpoint split (sep : N) (k : pystr) : list pystr :=
  match k with
  | [] => [[]]
  | c :: r =>
      if N.eqb c sep then [] :: split sep r
      else match split sep r with
           | h :: t => (c :: h) :: t
           | [] => [[c]]
           end
  end.

(** The body of [for k in dct.keys()], on the pair [(k, dct[k])]. *)
Definition unflatten_key (cubic : odict json) (p : pystr * pystr)
  : result exn (odict json) :=
  let k := fst p in
  let v := snd p in
  let kk := split SLASH k in
  if str_truthy v && Nat.eqb (List.length kk) 2 then
    let g := nth 0 kk [] in
    let f := nth 1 kk [] in
    match od_get g cubic with
    | Some (JObj o) => Ok (od_set g (JObj (od_set f (JStr v) o)) cubic)
    | Some _ => Raise AttributeError (* a [str] or [bool] has no [update] *)
    | None => Ok (od_set g (JObj [(f, JStr v)]) cubic)
    end
  else if str_eqb v TRUE_TEXT then Ok (od_set k (JBool true) cubic)
  else if str_truthy v then Ok (od_set k (JStr v) cubic)
  else Ok cubic.

Fixpoint unflatten_keys (cubic : odict json) (ps : list (pystr * pystr))
  : result exn (odict json) :=
  match ps with
  | [] => Ok cubic
  | p :: rest =>
      match unflatten_key cubic p with
      | Ok cubic' => unflatten_keys cubic' rest
      | Raise e => Raise e
      end
  end.

(** One data row: [dct = OrderedDict(zip(headers, row))], then the loop. *)
Definition unflatten_row (headers row : list pystr)
  : result exn (odict json) :=
  unflatten_keys [] (od_of_pairs (combine headers row)).

Fixpoint unflatten_rows (headers : list pystr) (rows : list (list pystr))
  : result exn (list json) :=
  match rows with
  | [] => Ok []
  | row :: rest =>
      match unflatten_row headers row with
      | Ok cubic =>
          match unflatten_rows headers rest with
          | Ok data => Ok (JObj cubic :: data)
          | Raise e => Raise e
          end
      | Raise e => Raise e
      end
  end.

(** The rows the reader yields: [headers = next(reader)], then the rest. *)
Definition unflatten (table : list (list pystr))
  : result exn (list json) :=
  match table with
  | [] => Raise StopIteration
  | headers :: rows => unflatten_rows headers rows
  end.

End Unflattener.
Import Unflattener.

(** ** The CSV text between the two handlers

    [get_csv] gives its rows to [csv.writer] and the import handler takes
    its rows from [csv.reader].  The reader gives back the fields the
    writer was given, except that it refuses a field longer than
    [csv.field_size_limit()], which is 131072 characters and which
    [app.py] does not change. *)

Module CsvText.




End CsvText.
Import CsvText.

(** A stand-in for [str] on lists and objects, where no such value is
    written. *)
Definition no_repr (_ : json) : pystr := [].

(** ** The stored document and the request handlers *)

Module Store.

(** A JSON text (the file's, or a request body), represented by what
    [json.load] makes of it. *)
Inductive text : Type :=
| Malformed              (* [json.load] raises *)
| Document (j : json).   (* [json.load] returns [j] *)

Inductive fs_event : Type :=
| Truncated              (* [open('data.json', 'w')] succeeded *)
| Dumped (j : json).     (* [json.dump(j, outfile, indent=4)] *)

Record world : Type := {
  data_json : option text;   (* [None]: the file does not exist *)
  readable : bool;           (* [open('data.json')] succeeds *)
  writable : bool;           (* [open('data.json', 'w')] succeeds *)
  writes : list fs_event     (* what was done to the file, latest first *)
}.

(** What leaves a handler other than a return value. *)
Inductive thrown : Type :=
| Exception (e : exn)
| HTTPResponse (status : nat) (msg : exn).  (* body: [json.dumps(str(msg))] *)

Definition M (A : Type) : Type := world -> result thrown A * world.

Definition ret {A} (a : A) : M A := fun w => (Ok a, w).
Definition throw {A} (t : thrown) : M A := fun w => (Raise t, w).
Definition bind {A B} (m : M A) (k : A -> M B) : M B :=
  fun w => match m w with
           | (Ok a, w') => k a w'
           | (Raise t, w') => (Raise t, w')
           end.

Notation "x <- m ;; k" := (bind m (fun x => k))
  (at level 61, m at next level, right associativity).
Notation "m ;;; k" := (bind m (fun _ => k))
  (at level 61, right associativity).

(** [except (ValueError, IOError) as e] *)
Definition caught (e : exn) : bool :=
  match e with
  | ValueError _ | JSONDecodeError | CsvValueError | IOError => true
  | AttributeError | StopIteration => false
  end.

Definition try_except {A} (m : M A) (handler : exn -> M A) : M A :=
  fun w => match m w with
           | (Raise (Exception e), w') =>
               if caught e then handler e w' else (Raise (Exception e), w')
           | r => r
           end.

(** [error(msg)]: raises [HTTPResponse] with status 500. *)
Definition error {A} (msg : exn) : M A := throw (HTTPResponse 500 msg).

Definition lift {A} (r : result exn A) : M A :=
  match r with Ok a => ret a | Raise e => throw (Exception e) end.

Definition path_exists : M bool :=
  fun w => (Ok (match data_json w with Some _ => true | None => false end), w).

(** [open('data.json')] *)
Definition open_read : M text :=
  fun w => match data_json w with
           | Some t => if readable w then (Ok t, w)
                       else (Raise (Exception IOError), w)
           | None => (Raise (Exception IOError), w)
           end.

(** [open('data.json', 'w')]: the file is emptied when it opens. *)
Definition open_write : M unit :=
  fun w => if writable w
           then (Ok tt, {| data_json := Some Malformed;
                           readable := readable w;
                           writable := writable w;
                           writes := Truncated :: writes w |})
           else (Raise (Exception IOError), w).

(** [json.dump(data, outfile, indent=4)]: afterwards the file holds the
    text of [data]. *)
Definition json_dump (data : json) : M unit :=
  fun w => (Ok tt, {| data_json := Some (Document data);
                      readable := readable w;
                      writable := writable w;
                      writes := Dumped data :: writes w |}).

(** [json.load] / [json.loads] *)
Definition json_load (t : text) : M json :=
  match t with
  | Document j => ret j
  | Malformed => throw (Exception JSONDecodeError)
  end.

(** [validate(data)] inside a handler. *)
Definition run_validate (data : json) : M unit :=
  match validate data with
  | Ok _ => ret tt
  | Raise r => throw (Exception (ValueError r))
  end.

Inductive body : Type :=
| NoBody                               (* the handler returned [None] *)
| JsonBody (j : json)                  (* [json.dumps(j)] *)
| CsvBody (table : list (list pystr)). (* the rows of the CSV text *)

Record request : Type := {
  content_type : pystr;   (* [bottle.request.content_type] *)
  payload : text          (* [bottle.request.body.getvalue()] *)
}.

Definition APPLICATION_JSON : pystr := Eval cbv in py "application/json".

(** [GET /data] *)
Definition get_data : M body :=
  try_except
    (present <- path_exists ;;
     if present
     then (infile <- open_read ;;
           data <- json_load infile ;;
           run_validate data ;;;
           ret (JsonBody data))
     else ret (JsonBody (JArr [JObj []])))
    error.

Module PostData.
(** [POST /data] *)
Definition post_data (req : request) : M body :=
  if str_eqb (content_type req) APPLICATION_JSON
  then try_except
         (data <- json_load (payload req) ;;
          run_validate data ;;;
          open_write ;;;
          json_dump data ;;;
          ret NoBody)
         error
  else ret NoBody.
End PostData.

Section CsvExport.
Variable str_compound : json -> pystr.

(** [for dct in data]: [validate] has passed, so [data] is a list. *)
Definition collection_items (data : json) : list json :=
  match data with JArr l => l | _ => [] end.

(** [GET /csv] *)
Definition get_csv : M body :=
  infile <- open_read ;;
  data <- json_load infile ;;
  run_validate data ;;;
  match export_table str_compound (collection_items data) with
  | Some table => ret (CsvBody table)
  | None => throw (Exception CsvValueError)
  end.
End CsvExport.

Module PostCsv.
(** [POST /csv]; [upload] is [bottle.request.files.get('upload')], as
    the rows [csv.reader] yields from it. *)
Definition post_data (upload : option (list (list pystr))) : M body :=
  table <- match upload with
           | Some t => ret t
           | None => throw (Exception AttributeError)
           end ;;
  data <- lift (unflatten table) ;;
  try_except
    (run_validate (JArr data) ;;;
     open_write ;;;
     json_dump (JArr data) ;;;
     ret NoBody)
    error.
End PostCsv.

End Store.
Import Store.

(** ** The request of [POST /data], as [bottle] presents it

    [bottle.request.content_type] is the [Content-Type] header in lower
    case ([environ.get('CONTENT_TYPE', '').lower()]), and
    [bottle.request.body] is an [io.BytesIO] only while the body has at
    most [MEMFILE_MAX] bytes: a longer body is kept in a temporary file,
    which has no [getvalue]. *)

Module Bottle.

(** [str.lower] on a header value.  A WSGI header value is a Latin-1
    string, one character per byte: the capitals are A to Z and the
    accented capitals of the upper half, each 32 below its small letter. *)
Definition lower_char (c : ascii) : ascii :=
  let n := N_of_ascii c in
  if ((65 <=? n) && (n <=? 90)
      || (192 <=? n) && (n <=? 214)
      || (216 <=? n) && (n <=? 222))%N
  then ascii_of_N (n + 32)
  else c.

Fixpoint lower (s : string) : string :=
  match s with
  | EmptyString => EmptyString
  | String c r => String (lower_char c) (lower r)
  end.

Definition MEMFILE_MAX : N := 102400.

Record http_request : Type := {
  content_type_header : string;  (* the header as sent; empty when absent *)
  body_length : N;               (* the number of bytes of the body *)
  body_text : text               (* the body, as a JSON text *)
}.

(** [bottle.request.content_type] *)
Definition request_content_type (r : http_request) : pystr :=
  py (lower (content_type_header r)).

(** [bottle.request.body.getvalue()] *)
Definition body_getvalue (r : http_request) : M text :=
  if (body_length r <=? MEMFILE_MAX)%N then ret (body_text r)
  else throw (Exception AttributeError).

(** [POST /data], from the request as it was sent. *)
Definition post_data (r : http_request) : M body :=
  if str_eqb (request_content_type r) APPLICATION_JSON
  then try_except
         (raw <- body_getvalue r ;;
          data <- json_load raw ;;
          run_validate data ;;;
          open_write ;;;
          json_dump data ;;;
          ret NoBody)
         error
  else ret NoBody.

End Bottle.

(** ** Files: [DELETE /file/<filepath>] and [GET /list] *)

Module Files.

Definition HIDE : list pystr :=
  Eval cbv in map py ["app.py"; "data.json"; "index.html"; "main.js";
                      "status.json"; "style.css"; "script.py"]%string.

(** [s.startswith(prefix)] *)
Fixpoint startswith (s prefix : pystr) {struct prefix} : bool :=
  match prefix with
  | [] => true
  | p :: ps => match s with
               | [] => false
               | c :: cs => N.eqb c p && startswith cs ps
               end
  end.

(** [name in filepath] on strings: [name] occurs somewhere in [filepath]. *)
Fixpoint contains (filepath name : pystr) : bool :=
  startswith filepath name
  || match filepath with
     | [] => false
     | _ :: rest => contains rest name
     end.

Definition DOT : pystr := Eval cbv in py ".".
Definition CANNOT_REMOVE : pystr := Eval cbv in py "Cannot remove ".

(** What [error] is called with in [delete_file]. *)
Inductive delete_error : Type :=
| Refused (msg : pystr)   (* ['Cannot remove %s' % filepath] *)
| RemoveFailed.           (* the [OSError] of [os.remove] *)

Section Remove.

(** The file system, and [os.remove] on it: [None] when it raises
    [OSError]. *)
Variable FS : Type.
Variable os_remove : pystr -> FS -> option FS.

(** [DELETE /file/<filepath>] *)
Definition delete_file (filepath : pystr) (fs : FS)
  : result delete_error unit * FS :=
  if existsb (fun name => contains filepath name) HIDE
  then (Raise (Refused (CANNOT_REMOVE ++ filepath)), fs)
  else match os_remove filepath fs with
       | Some fs' => (Ok tt, fs')
       | None => (Raise RemoveFailed, fs)
       end.

End Remove.

(** A directory as [os.walk] reads it: its files, each with what
    [os.path.getsize] gives for it ([None]: it raises [OSError]), and its
    subdirectories. *)
Unset Elimination Schemes.
Inductive tree : Type :=
| Dir (files : list (pystr * option N)) (dirs : list (pystr * tree)).
Set Elimination Schemes.

(** [name.startswith('.')] *)
Definition hidden (name : pystr) : bool := startswith name DOT.

(** [name in HIDE] on the list: [name] is one of its elements. *)
Definition in_hide (name : pystr) : bool := existsb (str_eqb name) HIDE.

(** [os.path.join(a, b)] of [posixpath]. *)
Definition path_join (a b : pystr) : pystr :=
  if startswith b [SLASH] then b
  else match rev a with
       | [] => b
       | c :: _ => if N.eqb c SLASH then a ++ b else a ++ SLASH :: b
       end.

(** [fname.replace('\\', '/')] *)
Definition forward_slashes (fname : pystr) : pystr :=
  map (fun c => if N.eqb c 92 then SLASH else c) fname.

(** [for name in files]: the entries appended to [flist] for one
    directory. *)
Fixpoint list_files (root : pystr) (files : list (pystr * option N))
  : result exn (list (pystr * N)) :=
  match files with
  | [] => Ok []
  | (name, size) :: rest =>
      if negb (in_hide name) && negb (hidden name) then
        match size with
        | None => Raise IOError
        | Some fsize =>
            match list_files root rest with
            | Ok l => Ok ((forward_slashes (path_join root name), fsize) :: l)
            | Raise e => Raise e
            end
        end
      else list_files root rest
  end.

(** [for root, dirs, files in os.walk(top)], top down, with the hidden
    directories taken out of [dirs]. *)
Fixpoint walk (root : pystr) (t : tree) : result exn (list (pystr * N)) :=
  match t with
  | Dir files dirs =>
      match list_files root files with
      | Raise e => Raise e
      | Ok here =>
          match
            (fix walk_dirs (ds : list (pystr * tree))
               : result exn (list (pystr * N)) :=
               match ds with
               | [] => Ok []
               | (d, sub) :: rest =>
                   if hidden d then walk_dirs rest
                   else match walk (path_join root d) sub with
                        | Raise e => Raise e
                        | Ok l => match walk_dirs rest with
                                  | Ok l' => Ok (l ++ l')
                                  | Raise e => Raise e
                                  end
                        end
               end) dirs
          with
          | Ok below => Ok (here ++ below)
          | Raise e => Raise e
          end
      end
  end.

(** [{'file': ..., 'size': ...}] *)
Definition list_entry (p : pystr * N) : json :=
  JObj [(py "file", JStr (fst p)); (py "size", JInt (Z.of_N (snd p)))].

(** [GET /list]: [json.dumps(flist)] for the tree under ['.']. *)
Definition get_list (t : tree) : result exn json :=
  match walk DOT t with
  | Ok flist => Ok (JArr (map list_entry flist))
  | Raise e => Raise e
  end.

End Files.
Import Files.

(** ** The status log: [GET /log] and [DELETE /log] *)

Module StatusLog.

(** [status.json] and whether it can be opened. *)
Record log_world : Type := {
  status_json : option text;   (* [None]: the file does not exist *)
  log_readable : bool;         (* [open('status.json')] succeeds *)
  log_writable : bool          (* [open('status.json', 'w')] succeeds *)
}.

Record log_request : Type := {
  msg : option text;      (* the [msg] query parameter, as [json.loads]
                             reads it; [None]: there is none *)
  remote_addr : pystr;    (* [bottle.request.remote_addr] *)
  now : pystr             (* [time.strftime('%x %X')] *)
}.

Inductive log_message : Type :=
| OfException (e : exn)    (* [error(e)] *)
| ExpectedObject.          (* [error('Expected JSON object')] *)

Inductive log_thrown : Type :=
| Escapes (e : exn)
| Error500 (m : log_message).

Inductive log_body : Type :=
| Newline                  (* ['\n'] *)
| Buffer (logbuf : json)   (* [json.dumps(logbuf)] *)
| Nothing.                 (* the handler returned [None] *)

Definition IP : pystr := Eval cbv in py "ip".
Definition TIME : pystr := Eval cbv in py "time".

(** The first [try] of [log_get]: [logbuf] is [[]] unless the file is
    there. *)
Definition load_log (w : log_world) : result log_thrown json :=
  match status_json w with
  | None => Ok (JArr [])
  | Some t =>
      if log_readable w then
        match t with
        | Document logbuf => Ok logbuf
        | Malformed => Raise (Error500 (OfException JSONDecodeError))
        end
      else Raise (Error500 (OfException IOError))
  end.

(** [msg['ip'] = ...; msg['time'] = ...] *)
Definition stamp (req : log_request) (o : odict json) : odict json :=
  od_set TIME (JStr (now req)) (od_set IP (JStr (remote_addr req)) o).

(** [GET /log] *)
Definition log_get (req : log_request) (w : log_world)
  : result log_thrown log_body * log_world :=
  match load_log w with
  | Raise t => (Raise t, w)
  | Ok logbuf =>
      match msg req with
      | None => (Ok (Buffer logbuf), w)
      | Some Malformed => (Raise (Error500 (OfException JSONDecodeError)), w)
      | Some (Document (JObj o)) =>
          match logbuf with
          | JArr l =>
              if log_writable w
              then (Ok Newline,
                    {| status_json :=
                         Some (Document (JArr (l ++ [JObj (stamp req o)])));
                       log_readable := log_readable w;
                       log_writable := log_writable w |})
              else (Raise (Error500 (OfException IOError)), w)
          | _ => (Raise (Escapes AttributeError), w) (* no [append] *)
          end
      | Some (Document _) => (Raise (Error500 ExpectedObject), w)
      end
  end.

(** [DELETE /log] *)
Definition log_delete (w : log_world)
  : result log_thrown log_body * log_world :=
  if log_writable w
  then (Ok Nothing,
        {| status_json := Some (Document (JArr []));
           log_readable := log_readable w;
           log_writable := log_writable w |})
  else (Raise (Error500 (OfException IOError)), w).

End StatusLog.
Import StatusLog.

(** * Vocabulary of the statements *)

(** ** The rules of the validator, one at a time *)

(** A key that [validate] counts as empty. *)
Definition blank (k : pystr) : bool := negb (str_truthy k) || isspace k.

(** Each rule on its own, as a test of one element of the collection. *)
Definition violates (r : reason) (e : json) : bool :=
  match e with
  | JObj my =>
      match r with
      | ExpectingArrayOfObjects => false
      | InvalidStackShape =>
          match od_get STACK my with Some (JObj _) | None => false | _ => true end
      | InvalidSubstShape =>
          match od_get SUBST my with Some (JObj _) | None => false | _ => true end
      | EmptyObjectNotAllowed =>
          existsb (fun v => match v with JObj [] => true | _ => false end)
                  (od_values my)
      | EmptyKeyNotAllowed => existsb blank (od_keys my)
      | TooManyDefaults => false
      end
  | _ => match r with ExpectingArrayOfObjects => true | _ => false end
  end.

(** The order in which the loop body tests the rules on one element. *)
Definition entry_order : list reason :=
  [ExpectingArrayOfObjects; InvalidStackShape; InvalidSubstShape;
   EmptyObjectNotAllowed; EmptyKeyNotAllowed].

(** The rules one element violates, in that order. *)
Definition violations (e : json) : list reason :=
  filter (fun r => violates r e) entry_order.

(** An entry without a [stack] key. *)
Definition lacks_stack (e : json) : bool :=
  match e with JObj my => negb (od_in STACK my) | _ => false end.

(** The spec's third rule: an empty or white-space key anywhere within an
    element, the keys of its nested objects included. *)
Definition spec_blank_key (e : json) : bool :=
  match e with
  | JObj my =>
      existsb blank (od_keys my)
      || existsb (fun v => match v with
                           | JObj o => existsb blank (od_keys o)
                           | _ => false
                           end) (od_values my)
  | _ => false
  end.

(** The spec's precedence: rules 1 to 4 in that order, each one tested
    over the whole collection before the next. *)
Definition spec_first_failure (data : json) : option reason :=
  match data with
  | JArr l =>
      if existsb (violates ExpectingArrayOfObjects) l
      then Some ExpectingArrayOfObjects
      else if existsb (violates EmptyObjectNotAllowed) l
      then Some EmptyObjectNotAllowed
      else if existsb spec_blank_key l then Some EmptyKeyNotAllowed
      else if Nat.ltb 1 (List.length (filter lacks_stack l))
      then Some TooManyDefaults
      else None
  | _ => Some ExpectingArrayOfObjects
  end.

(** ** Column names *)

(** A name without separator. *)
Definition no_slash (k : pystr) : bool :=
  negb (existsb (fun c => N.eqb c SLASH) k).

(** The text before the first separator, and the text after it. *)
Fixpoint before (sep : N) (k : pystr) : pystr :=
  match k with
  | [] => []
  | c :: r => if N.eqb c sep then [] else c :: before sep r
  end.

Fixpoint after (sep : N) (k : pystr) : pystr :=
  match k with
  | [] => []
  | c :: r => if N.eqb c sep then r else after sep r
  end.

(** The number of separators in a name. *)
Fixpoint count (sep : N) (k : pystr) : nat :=
  match k with
  | [] => 0
  | c :: r => if N.eqb c sep then S (count sep r) else count sep r
  end.

(** The spec's reading of the step: cut at the first separator only, and
    nest when both parts are non-empty and the cell is not blank. *)
Definition spec_unflatten_key (cubic : odict json) (p : pystr * pystr)
  : odict json :=
  let k := fst p in
  let v := snd p in
  let g := before SLASH k in
  let f := after SLASH k in
  if negb (no_slash k) && str_truthy g && str_truthy f && str_truthy v then
    match od_get g cubic with
    | Some (JObj o) => od_set g (JObj (od_set f (JStr v) o)) cubic
    | _ => od_set g (JObj [(f, JStr v)]) cubic
    end
  else if str_eqb v TRUE_TEXT then od_set k (JBool true) cubic
  else if str_truthy v then od_set k (JStr v) cubic
  else cubic.

(** ** Cells of the exported table *)

(** The field written for one column of one row. *)
Definition cell (str_compound : json -> pystr) (flat : odict json)
  (col : pystr) : pystr :=
  csv_field str_compound (od_get_default col flat (JStr [])).

(** How a cell renders the value of its column in a row: the code's way
    and the spec's way ([None]: the row has no such key). *)
Definition code_rendering (v : option json) (field : pystr) : Prop :=
  match v with
  | Some (JBool true) => field = TRUE_TEXT
  | Some (JBool false) => field = FALSE_TEXT
  | Some JNull | None => field = []
  | Some _ => True
  end.

Definition spec_rendering (v : option json) (field : pystr) : Prop :=
  match v with
  | Some (JBool true) => field = TRUE_TEXT
  | Some (JBool false) | None => field = []
  | Some _ => True
  end.

Definition rendered_by (R : option json -> pystr -> Prop)
  (data : list json) (table : list (list pystr)) : Prop :=
  exists rows,
    table = columns (flat_data data) :: rows
    /\ Forall2 (fun flat row =>
                  Forall2 (fun col field => R (od_get col flat) field)
                          (columns (flat_data data)) row)
               (flat_data data) rows.

(** ** What export followed by import gives back *)

(** A value that is neither a list nor an object. *)
Definition scalar (v : json) : bool :=
  match v with JArr _ | JObj _ => false | _ => true end.


(** No key occurs twice. *)
Fixpoint unique (ks : list pystr) : bool :=
  match ks with
  | [] => true
  | k :: r => negb (existsb (str_eqb k) r) && unique r
  end.





(** What the import makes of a non-empty top-level cell. *)
Definition scalar_of_text (s : pystr) : json :=
  if str_eqb s TRUE_TEXT then JBool true else JStr s.











(** ** The columns of one entry *)

(** The three conditions on a nested object and on an entry, as facts
    about their pairs. *)
Definition nested_ok (o : odict json) : Prop :=
  NoDup (od_keys o)
  /\ Forall (fun q => no_slash (fst q) = true /\ scalar (snd q) = true) o.

Definition entry_ok (my : odict json) : Prop :=
  NoDup (od_keys my)
  /\ Forall (fun p => no_slash (fst p) = true
                      /\ match snd p with
                         | JObj o => nested_ok o
                         | v => scalar v = true
                         end) my.

(** The columns one key contributes, and those of the whole entry. *)
Definition flat_piece (p : pystr * json) : odict json :=
  match snd p with
  | JObj o => map (fun q => (fst p ++ SLASH :: fst q, snd q)) o
  | v => [(fst p, v)]
  end.

Definition flat_list (my : odict json) : odict json := flat_map flat_piece my.

(** ** The cells of one row, as the import loop reads them *)

(** The fields the cells hold for the group [g], in the order of the
    cells. *)
Definition fields (g : pystr) (ps : list (pystr * pystr)) : odict json :=
  flat_map (fun p => match split SLASH (fst p) with
                     | [g'; f] => if str_eqb g' g then [(f, JStr (snd p))]
                                  else []
                     | _ => []
                     end) ps.

(** What the loop leaves under [k] after the cells [ps]. *)
Definition top (k : pystr) (ps : list (pystr * pystr)) : option json :=
  if no_slash k then
    match od_get k ps with
    | Some s => Some (scalar_of_text s)
    | None => match fields k ps with
              | [] => None
              | fs => Some (JObj fs)
              end
    end
  else None.

(** Cells as a row of an entry gives them: names unique, no cell empty, at
    most one separator in a name, and no group that is also a name. *)
Definition regular (ps : list (pystr * pystr)) : Prop :=
  NoDup (od_keys ps)
  /\ forall k s, In (k, s) ps ->
       str_truthy s = true
       /\ (no_slash k = true
           \/ exists g f, k = g ++ SLASH :: f
                          /\ no_slash g = true /\ no_slash f = true
                          /\ ~ In g (od_keys ps)).

(** The non-empty cells of a row, each with its column name. *)
Definition filled (h : pystr -> pystr) (cols : list pystr)
  : list (pystr * pystr) :=
  filter (fun p => str_truthy (snd p)) (map (fun c => (c, h c)) cols).

(** ** A sample collection *)

Definition round_trip_sample : list json :=
  [JObj [(STACK, JObj [(py "ip", JStr (py "1.2.3.4")); (py "dhcp", JBool true)]);
         (py "enabled", JBool true);
         (py "debug", JBool false);
         (py "vlan", JInt 10);
         (py "note", JStr [])];
   JObj [(py "enabled", JStr (py "True"));
         (STACK, JObj [(py "ip", JStr (py "1.2.3.5"))])]].

(** ** What a valid collection is *)

(** The conditions [validate] puts on one element, stated on its pairs. *)
Definition valid_entry (e : json) : Prop :=
  exists my,
    e = JObj my
    /\ (forall v, od_get STACK my = Some v -> is_odict v = true)
    /\ (forall v, od_get SUBST my = Some v -> is_odict v = true)
    /\ (forall k, ~ In (k, JObj []) my)
    /\ (forall k, In k (od_keys my) -> k <> [] /\ isspace k = false).

(** ** What the import builds *)

(** A field of a nested object built by the import: a non-empty string. *)
Definition imported_field (v : json) : Prop :=
  exists s, v = JStr s /\ s <> [].

(** A top-level value built by the import: [true], a non-empty string other
    than [True], or a non-empty object with distinct keys and non-empty
    strings as fields. *)
Definition imported_value (v : json) : Prop :=
  v = JBool true
  \/ (exists s, v = JStr s /\ s <> [] /\ s <> TRUE_TEXT)
  \/ (exists o, v = JObj o /\ o <> [] /\ NoDup (od_keys o)
                /\ Forall (fun q => imported_field (snd q)) o).

Definition imported_dict (my : odict json) : Prop :=
  NoDup (od_keys my) /\ Forall (fun p => imported_value (snd p)) my.

Definition imported_entry (e : json) : Prop :=
  exists my, e = JObj my /\ imported_dict my.

(** A row cut, or padded with empty cells, to [n] cells. *)
Fixpoint fit_row (n : nat) (row : list pystr) : list pystr :=
  match n with
  | 0 => []
  | S n' => match row with
            | [] => [] :: fit_row n' []
            | c :: r => c :: fit_row n' r
            end
  end.

(** ** Import followed by export *)

(** A header whose names are distinct, hold at most one separator each, and
    of which none is the group of another ([a] beside [a/b]). *)
Definition plain_header (headers : list pystr) : bool :=
  unique headers
  && forallb (fun c => Nat.leb (count SLASH c) 1) headers
  && forallb (fun c => no_slash c
                       || negb (existsb (str_eqb (before SLASH c)) headers))
             headers.

(** The cell of a row under a column name, empty when there is none. *)
Definition cell_at (headers row : list pystr) (c : pystr) : pystr :=
  od_get_default c (combine headers row) [].

(** The value the import keeps for a non-empty cell of column [c]. *)
Definition cell_value (c s : pystr) : json :=
  if no_slash c then scalar_of_text s else JStr s.

(** ** The files a listing shows *)

(** [visible t ds name size]: in the tree [t], the file [name] with size
    [size] lies in the directory reached through [ds]; neither a directory
    on the way nor the file starts with a dot, and the file is none of the
    names in [HIDE]. *)
Inductive visible : tree -> list pystr -> pystr -> option N -> Prop :=
| visible_here (files : list (pystr * option N)) (dirs : list (pystr * tree))
    (name : pystr) (size : option N) :
    In (name, size) files -> in_hide name = false -> hidden name = false ->
    visible (Dir files dirs) [] name size
| visible_below (files : list (pystr * option N)) (dirs : list (pystr * tree))
    (d : pystr) (sub : tree) (ds : list pystr) (name : pystr)
    (size : option N) :
    In (d, sub) dirs -> hidden d = false -> visible sub ds name size ->
    visible (Dir files dirs) (d :: ds) name size.

(** The path [os.walk] and [os.path.join] build for a file, with the
    back-slashes replaced. *)
Definition listed_path (root : pystr) (ds : list pystr) (name : pystr)
  : pystr :=
  forward_slashes (path_join (fold_left path_join ds root) name).

(** The walk through the subdirectories of one directory. *)
Fixpoint walk_dirs (root : pystr) (ds : list (pystr * tree))
  : result exn (list (pystr * N)) :=
  match ds with
  | [] => Ok []
  | (d, sub) :: rest =>
      if hidden d then walk_dirs root rest
      else match walk (path_join root d) sub with
           | Raise e => Raise e
           | Ok l => match walk_dirs root rest with
                     | Ok l' => Ok (l ++ l')
                     | Raise e => Raise e
                     end
           end
  end.

(** What [walk] gives for a tree: the visible files that have a size, or
    [IOError] when a visible file has none. *)
Definition walk_lists_visible (t : tree) : Prop :=
  forall root,
    match walk root t with
    | Ok l =>
        (forall p n, In (p, n) l
                     <-> exists ds name, visible t ds name (Some n)
                                         /\ p = listed_path root ds name)
        /\ ~ (exists ds name, visible t ds name None)
    | Raise e =>
        e = IOError /\ exists ds name, visible t ds name None
    end.

(** ** More samples *)

Definition import_sample : list (list pystr) :=
  [[py "name"; py "stack/ip"; py "note"; py "stack/mask"];
   [py "r1"; py "10.0.0.1"; []; py "24"];
   [py "True"; []; []; py "16"]].

Definition sample_tree : tree :=
  Dir [(py "data.json", Some 120%N); (py "ios.bin", Some 4096%N);
       (py ".profile", Some 10%N)]
      [(py "configs", Dir [(py "r1.cfg", Some 300%N);
                           (py "script.py", Some 50%N)] []);
       (py ".git", Dir [(py "HEAD", None)] [])].

(** ** The order of the keys after an import *)






(** ** Part of a collection *)

(** The elements of [l] at the positions where [mask] says [true]. *)
Fixpoint keep_at {A : Type} (mask : list bool) (l : list A) : list A :=
  match mask, l with
  | b :: mask', x :: l' =>
      if b then x :: keep_at mask' l' else keep_at mask' l'
  | _, _ => []
  end.

(** [l'] is [l] with some of its elements dropped. *)
Inductive sub_collection {A : Type} : list A -> list A -> Prop :=
| sub_nil : sub_collection [] []
| sub_keep (x : A) (l' l : list A) :
    sub_collection l' l -> sub_collection (x :: l') (x :: l)
| sub_drop (x : A) (l' l : list A) :
    sub_collection l' l -> sub_collection l' (x :: l).

(** * Properties *)

(** ** The samples of the specification *)

Example validate_accepts_sample :
  validate (JArr [JObj [(py "name", JStr (py "default"))];
                  JObj [(STACK, JObj [(py "ip", JStr (py "10.0.0.1"))]);
                        (py "name", JStr (py "r1"))]]) = Ok tt.
Proof. reflexivity. Qed.

Example validate_rejects_bare_object :
  validate (JObj [(py "a", JStr (py "b"))]) = Raise ExpectingArrayOfObjects.
Proof. reflexivity. Qed.

Example validate_rejects_two_defaults :
  validate (JArr [JObj []; JObj []]) = Raise TooManyDefaults.
Proof. reflexivity. Qed.

Example flatten_sample :
  export_table no_repr
    [JObj [(STACK, JObj [(py "ip", JStr (py "1.2.3.4"))]);
           (py "enabled", JBool true)]]
  = Some [[py "stack/ip"; py "enabled"]; [py "1.2.3.4"; py "True"]].
Proof. reflexivity. Qed.

Example unflatten_sample :
  unflatten [[py "stack/ip"; py "enabled"]; [py "1.2.3.4"; py "True"]]
  = Ok [JObj [(STACK, JObj [(py "ip", JStr (py "1.2.3.4"))]);
              (py "enabled", JBool true)]].
Proof. reflexivity. Qed.

(** ** Strings and ordered dictionaries *)

Lemma str_eqb_refl (a : pystr) : str_eqb a a = true.
Proof.
  induction a as [|x a IH]; simpl; [reflexivity|].
  now rewrite N.eqb_refl, IH.
Qed.

Lemma str_eqb_eq (a b : pystr) : str_eqb a b = true <-> a = b.
Proof.
  split; [|intros ->; apply str_eqb_refl].
  revert b; induction a as [|x a IH]; destruct b as [|y b]; simpl;
    try discriminate; auto.
  rewrite andb_true_iff, N.eqb_eq. intros [-> H]. f_equal. now apply IH.
Qed.

Lemma str_eqb_neq (a b : pystr) : str_eqb a b = false <-> a <> b.
Proof.
  rewrite <- str_eqb_eq. destruct (str_eqb a b); split; congruence.
Qed.

Lemma str_eqb_sym (a b : pystr) : str_eqb a b = str_eqb b a.
Proof.
  destruct (str_eqb a b) eqn:E.
  - apply str_eqb_eq in E. subst. symmetry. apply str_eqb_refl.
  - symmetry. apply str_eqb_neq. apply str_eqb_neq in E. congruence.
Qed.

Ltac str_cases a b :=
  let E := fresh "E" in
  destruct (str_eqb a b) eqn:E;
  [apply str_eqb_eq in E | apply str_eqb_neq in E].

Section OdictFacts.
Context {V : Type}.
Implicit Types (d : odict V) (k : pystr) (v : V).

Lemma od_get_set_same k v d : od_get k (od_set k v d) = Some v.
Proof.
  induction d as [|[k' v'] d IH]; simpl.
  - now rewrite str_eqb_refl.
  - destruct (str_eqb k k') eqn:E; simpl; rewrite ?str_eqb_refl, ?E; auto.
Qed.

Lemma od_get_set_other k k' v d :
  k' <> k -> od_get k' (od_set k v d) = od_get k' d.
Proof.
  intros N. induction d as [|[k0 v0] d IH]; simpl.
  - apply str_eqb_neq in N. now rewrite N.
  - str_cases k k0; simpl.
    + subst k0. apply str_eqb_neq in N. now rewrite N.
    + now rewrite IH.
Qed.

Lemma od_in_set_other k k' v d :
  k' <> k -> od_in k' (od_set k v d) = od_in k' d.
Proof. intros N. unfold od_in. now rewrite od_get_set_other. Qed.

Lemma od_get_None_keys k d : od_get k d = None <-> ~ In k (od_keys d).
Proof.
  induction d as [|[k0 v0] d IH]; simpl.
  - tauto.
  - str_cases k k0.
    + subst. split; [discriminate | intros H; exfalso; auto].
    + rewrite IH. split; [intros H [H1|H1]; congruence | tauto].
Qed.

Lemma od_get_Some_In k v d : od_get k d = Some v -> In (k, v) d.
Proof.
  induction d as [|[k0 v0] d IH]; simpl; [discriminate|].
  str_cases k k0.
  - intros [= ->]. subst. now left.
  - intros H. right. now apply IH.
Qed.

Lemma od_get_In_NoDup k v d :
  NoDup (od_keys d) -> In (k, v) d -> od_get k d = Some v.
Proof.
  induction d as [|[k0 v0] d IH]; simpl; [tauto|].
  intros ND [H|H].
  - injection H as -> ->. now rewrite str_eqb_refl.
  - inversion ND as [|? ? Hn ND']; subst.
    str_cases k k0.
    + subst. exfalso. apply Hn. apply (in_map fst) in H. exact H.
    + now apply IH.
Qed.

(** Assigning to a key keeps the keys, or adds the new one at the end. *)
Lemma od_keys_set k v d :
  od_keys (od_set k v d)
  = if od_in k d then od_keys d else od_keys d ++ [k].
Proof.
  unfold od_in.
  induction d as [|[k0 v0] d IH]; simpl; [reflexivity|].
  str_cases k k0; simpl.
  - now subst.
  - rewrite IH. now destruct (od_get k d).
Qed.

Lemma od_set_fresh k v d : od_get k d = None -> od_set k v d = d ++ [(k, v)].
Proof.
  induction d as [|[k0 v0] d IH]; simpl; [reflexivity|].
  str_cases k k0; [discriminate|]. intros H. now rewrite IH.
Qed.

Lemma od_set_NoDup k v d : NoDup (od_keys d) -> NoDup (od_keys (od_set k v d)).
Proof.
  intros ND. rewrite od_keys_set. unfold od_in.
  destruct (od_get k d) eqn:E; [exact ND|].
  apply od_get_None_keys in E.
  apply NoDup_rev in ND. rewrite <- (rev_involutive (od_keys d ++ [k])).
  apply NoDup_rev. rewrite rev_app_distr. simpl. constructor; auto.
  now rewrite <- in_rev.
Qed.

End OdictFacts.

(** ** The validator *)

Lemma num_obj_zero (my : odict json) :
  existsb (Nat.eqb 0) (num_obj my)
  = existsb (fun v => match v with JObj [] => true | _ => false end)
            (od_values my).
Proof.
  unfold num_obj.
  induction (od_values my) as [|v vs IH]; [reflexivity|].
  destruct v as [| | | | | |o]; cbn [flat_map existsb app]; auto.
  rewrite IH. destruct o; reflexivity.
Qed.

Lemma empty_keys_blank (my : odict json) :
  negb (Nat.eqb (List.length (empty_keys my)) 0) = existsb blank (od_keys my).
Proof.
  unfold empty_keys. fold blank.
  induction (od_keys my) as [|k ks IH]; simpl; [reflexivity|].
  destruct (blank k); simpl; auto.
Qed.

Lemma not_object_at_violates (name : pystr) (my : odict json) :
  not_object_at name my
  = match od_get name my with Some (JObj _) | None => false | _ => true end.
Proof.
  unfold not_object_at. destruct (od_get name my) as [[]|]; reflexivity.
Qed.

(** The loop body raises the first rule violated, in [entry_order]. *)
Lemma check_entry_violations (e : json) (n : nat) :
  check_entry e n
  = match violations e with
    | r :: _ => Raise r
    | [] => Ok (if lacks_stack e then S n else n)
    end.
Proof.
  destruct e as [| | | | | |my]; try reflexivity.
  unfold check_entry, violations, entry_order. simpl filter.
  rewrite !not_object_at_violates, num_obj_zero, empty_keys_blank.
  destruct (od_get STACK my) as [[]|] eqn:Es; try reflexivity;
    destruct (od_get SUBST my) as [[]|]; try reflexivity;
    destruct (existsb _ (od_values my)); try reflexivity;
    destruct (existsb blank (od_keys my)); try reflexivity;
    simpl; unfold od_in; rewrite Es; reflexivity.
Qed.

Lemma validate_loop_app (a b : list json) (n : nat) :
  validate_loop (a ++ b) n
  = match validate_loop a n with
    | Ok m => validate_loop b m
    | Raise r => Raise r
    end.
Proof.
  revert n. induction a as [|e a IH]; intros n; simpl; [reflexivity|].
  destruct (check_entry e n); auto.
Qed.

Lemma validate_loop_violations (l : list json) (n : nat) :
  validate_loop l n
  = match flat_map violations l with
    | r :: _ => Raise r
    | [] => Ok (n + List.length (filter lacks_stack l))
    end.
Proof.
  revert n. induction l as [|e l IH]; intros n; simpl.
  - f_equal. lia.
  - rewrite check_entry_violations.
    destruct (violations e) as [|r rs]; simpl; [|reflexivity].
    rewrite IH. destruct (flat_map violations l); [|reflexivity].
    f_equal. destruct (lacks_stack e); simpl; lia.
Qed.

Lemma validate_by_violations (l : list json) :
  validate (JArr l)
  = match flat_map violations l with
    | r :: _ => Raise r
    | [] => if Nat.ltb 1 (List.length (filter lacks_stack l))
            then Raise TooManyDefaults else Ok tt
    end.
Proof.
  unfold validate. rewrite validate_loop_violations.
  destruct (flat_map violations l); reflexivity.
Qed.

(** C5, as the single pass has it: [validate] raises the first violation in
    entry-major order, that is the first rule (array of objects, stack
    shape, subst shape, empty object, empty key) violated by the first
    element that violates any; the limit on elements without [stack] is
    reported only when no element violates a rule of its own. *)
Theorem validate_first_failure_entry_major (l : list json) :
  validate (JArr l)
  = match flat_map violations l with
    | r :: _ => Raise r
    | [] => if Nat.ltb 1 (List.length (filter lacks_stack l))
            then Raise TooManyDefaults else Ok tt
    end.
Proof.
  unfold validate. rewrite validate_loop_violations.
  destruct (flat_map violations l) as [|r rs]; reflexivity.
Qed.

(** C5 as stated fails: the first element has an empty key (rule 3), the
    second is not an object (rule 1), and the pass stops at the first. *)
Lemma validate_not_canonical_order :
  ~ (forall data r, spec_first_failure data = Some r -> validate data = Raise r).
Proof.
  intros H.
  specialize (H (JArr [JObj [([], JStr (py "x"))]; JInt 5])
                ExpectingArrayOfObjects eq_refl).
  discriminate H.
Qed.

(** C2, as the code has it: a collection with an element whose own
    (top-level) keys include an empty or white-space one is rejected, and
    the failure is [EmptyKeyNotAllowed] when no earlier test of the pass
    fires: none on a preceding element, and neither the stack-shape, the
    subst-shape nor the empty-object test on that element.  Keys of nested
    objects are not examined. *)
Theorem validate_blank_top_level_key
  (pre post : list json) (my : odict json)
  (Hblank : existsb blank (od_keys my) = true) :
  exists r,
    validate (JArr (pre ++ JObj my :: post)) = Raise r
    /\ (flat_map violations pre = [] ->
        violates InvalidStackShape (JObj my) = false ->
        violates InvalidSubstShape (JObj my) = false ->
        violates EmptyObjectNotAllowed (JObj my) = false ->
        r = EmptyKeyNotAllowed).
Proof.
  rewrite validate_by_violations, flat_map_app. simpl flat_map.
  assert (Hin : In EmptyKeyNotAllowed (violations (JObj my))).
  { unfold violations. apply filter_In. split; [|exact Hblank].
    unfold entry_order. simpl. tauto. }
  destruct (flat_map violations pre) as [|r0 rs] eqn:Epre.
  - simpl. destruct (violations (JObj my)) as [|r rs] eqn:Ev; [destruct Hin|].
    exists r. split; [reflexivity|]. intros _ H1 H2 H3.
    unfold violations, entry_order in Ev. simpl filter in Ev.
    simpl violates in H1, H2, H3. rewrite H1, H2, H3, Hblank in Ev.
    now injection Ev as <- _.
  - exists r0. split; [reflexivity | discriminate].
Qed.

Lemma validate_blank_top_level_key_witness :
  exists r,
    validate (JArr ([] ++ JObj [(py " ", JStr (py "x"))] :: [])) = Raise r
    /\ (flat_map violations [] = [] ->
        violates InvalidStackShape (JObj [(py " ", JStr (py "x"))]) = false ->
        violates InvalidSubstShape (JObj [(py " ", JStr (py "x"))]) = false ->
        violates EmptyObjectNotAllowed (JObj [(py " ", JStr (py "x"))]) = false ->
        r = EmptyKeyNotAllowed).
Proof.
  apply (@validate_blank_top_level_key [] [] [(py " ", JStr (py "x"))]).
  reflexivity.
Defined.

(** C2 as stated fails: a white-space key inside a nested object passes. *)
Lemma validate_ignores_nested_blank_key :
  ~ (forall l, existsb spec_blank_key l = true ->
               validate (JArr l) = Raise EmptyKeyNotAllowed).
Proof.
  intros H.
  specialize (H [JObj [(STACK, JObj [(py " ", JStr (py "x"))])]] eq_refl).
  discriminate H.
Qed.

Lemma no_empty_object_set (k : pystr) (v : json) (my : odict json) :
  v <> JObj [] ->
  existsb (fun v => match v with JObj [] => true | _ => false end)
          (od_values my) = false ->
  existsb (fun v => match v with JObj [] => true | _ => false end)
          (od_values (od_set k v my)) = false.
Proof.
  intros Hv.
  assert (Ev : match v with JObj [] => true | _ => false end = false)
    by (destruct v as [| | | | | |[|]]; congruence).
  induction my as [|[k0 v0] my IH]; simpl.
  - intros _. now rewrite Ev.
  - intros H. apply orb_false_iff in H. destruct H as [H0 H1].
    destruct (str_eqb k k0); simpl.
    + now rewrite Ev.
    + rewrite H0. simpl. auto.
Qed.

Lemma no_blank_key_set (k : pystr) (v : json) (my : odict json) :
  blank k = false ->
  existsb blank (od_keys my) = false ->
  existsb blank (od_keys (od_set k v my)) = false.
Proof.
  intros Hk H. rewrite od_keys_set. destruct (od_in k my); [exact H|].
  rewrite existsb_app, H. simpl. now rewrite Hk.
Qed.

(** C9: a valid collection stays valid when any key other than [stack] and
    [subst] of one of its elements is given a value outside the data model
    (a number, an array, an object whose own values are objects, even empty
    ones): what is needed is a non-blank key and a value that is not the
    empty object itself. *)
Theorem validate_accepts_values_outside_model
  (pre post : list json) (my : odict json) (k : pystr) (v : json)
  (Hstack : k <> STACK) (Hsubst : k <> SUBST)
  (Hkey : blank k = false)
  (Hval : v <> JObj [])
  (Hvalid : validate (JArr (pre ++ JObj my :: post)) = Ok tt) :
  validate (JArr (pre ++ JObj (od_set k v my) :: post)) = Ok tt.
Proof.
  assert (Hv : violations (JObj (od_set k v my)) = []
               /\ lacks_stack (JObj (od_set k v my)) = lacks_stack (JObj my)).
  { rewrite validate_by_violations, flat_map_app in Hvalid.
    simpl flat_map in Hvalid.
    destruct (flat_map violations pre); [|discriminate]. simpl in Hvalid.
    destruct (violations (JObj my)) eqn:Ev; [|discriminate]. clear Hvalid.
    unfold violations, entry_order in *. simpl filter in *. simpl violates in *.
    rewrite !od_get_set_other by congruence.
    split; [|simpl; now rewrite od_in_set_other by congruence].
    destruct (od_get STACK my) as [[]|]; try discriminate;
      destruct (od_get SUBST my) as [[]|]; try discriminate.
    all: destruct (existsb _ (od_values my)) eqn:E1; try discriminate.
    all: destruct (existsb blank (od_keys my)) eqn:E2; try discriminate.
    all: rewrite (no_empty_object_set k my Hval E1).
    all: rewrite (no_blank_key_set k v my Hkey E2).
    all: reflexivity. }
  destruct Hv as [Hv Hl].
  rewrite validate_by_violations in *.
  rewrite flat_map_app, filter_app, length_app in *.
  cbn [flat_map filter] in *. rewrite Hv, Hl.
  destruct (flat_map violations pre); [|discriminate].
  destruct (violations (JObj my)); [|discriminate].
  cbn [app] in *. destruct (lacks_stack (JObj my)); exact Hvalid.
Qed.

(** The collection [[{"a": {"b": {}}}]] is accepted. *)
Lemma validate_accepts_values_outside_model_witness :
  validate (JArr ([] ++ JObj (od_set (py "a") (JObj [(py "b", JObj [])]) [])
                     :: [])) = Ok tt.
Proof.
  apply validate_accepts_values_outside_model; try discriminate; reflexivity.
Defined.

Example validate_accepts_number_and_array :
  validate (JArr [JObj [(STACK, JObj [(py "ip", JStr (py "10.0.0.1"))]);
                        (py "vlan", JInt 10);
                        (py "ports", JArr [JInt 1; JInt 2]);
                        (py "extra", JObj [(py "deep", JObj [(py "x", JNull)])])]])
  = Ok tt.
Proof. reflexivity. Qed.

(** ** The stored document *)

(** C8: with no [data.json], [GET /data] answers [[{}]], raises nothing
    and leaves the store as it was. *)
Theorem get_data_missing_document (rd wr : bool) (log : list fs_event) :
  get_data {| data_json := None; readable := rd; writable := wr;
              writes := log |}
  = (Ok (JsonBody (JArr [JObj []])),
     {| data_json := None; readable := rd; writable := wr; writes := log |}).
Proof. reflexivity. Qed.

(** C10 as stated fails: [bottle] compares the header in lower case, so a
    request sent with [Application/JSON], which is not exactly
    [application/json], is parsed, validated and written. *)
Lemma post_data_header_case_ignored :
  let r := {| Bottle.content_type_header := "Application/JSON";
              Bottle.body_length := 4;
              Bottle.body_text := Document (JArr [JObj []]) |} in
  let w := {| data_json := None; readable := true; writable := true;
              writes := [] |} in
  py (Bottle.content_type_header r) <> APPLICATION_JSON
  /\ Bottle.post_data r w
     = (Ok NoBody,
        {| data_json := Some (Document (JArr [JObj []]));
           readable := true; writable := true;
           writes := [Dumped (JArr [JObj []]); Truncated] |}).
Proof. split; [discriminate | reflexivity]. Qed.

(** C10, as the code has it: when the [Content-Type] header, put in lower
    case, is not [application/json], [POST /data] returns nothing whatever
    the body is and however long it is, and the store, with the record of
    what was done to the file, is unchanged. *)
Theorem post_data_other_content_type (r : Bottle.http_request) (w : world)
  (Htype : Bottle.request_content_type r <> APPLICATION_JSON) :
  Bottle.post_data r w = (Ok NoBody, w).
Proof.
  unfold Bottle.post_data.
  apply str_eqb_neq in Htype. now rewrite Htype.
Qed.

Lemma post_data_other_content_type_witness :
  let w := {| data_json := Some (Document (JArr [JObj []]));
              readable := true; writable := true; writes := [] |} in
  Bottle.post_data {| Bottle.content_type_header := "Text/Plain";
                      Bottle.body_length := 1;
                      Bottle.body_text := Malformed |} w = (Ok NoBody, w)
  /\ Bottle.post_data
       {| Bottle.content_type_header := "application/json; charset=utf-8";
          Bottle.body_length := 200000;
          Bottle.body_text := Document (JArr [JObj []]) |} w
     = (Ok NoBody, w).
Proof.
  split; apply post_data_other_content_type; discriminate.
Defined.

(** The handler as it sees the request: the content type [bottle] gives,
    and the body when [getvalue] gives it. *)
Lemma post_data_as_presented (r : Bottle.http_request) (w : world) :
  (Bottle.body_length r <= Bottle.MEMFILE_MAX)%N ->
  Bottle.post_data r w
  = PostData.post_data {| content_type := Bottle.request_content_type r;
                          payload := Bottle.body_text r |} w.
Proof.
  intros Hsize. apply N.leb_le in Hsize.
  unfold Bottle.post_data, PostData.post_data, Bottle.body_getvalue.
  cbn [content_type payload]. rewrite Hsize.
  destruct (str_eqb (Bottle.request_content_type r) APPLICATION_JSON);
    reflexivity.
Qed.

(** A body beyond [MEMFILE_MAX] under the content type [application/json]:
    [getvalue] is missing, the [AttributeError] is not caught, and nothing
    is written. *)
Lemma post_data_long_body (r : Bottle.http_request) (w : world) :
  Bottle.request_content_type r = APPLICATION_JSON ->
  (Bottle.MEMFILE_MAX < Bottle.body_length r)%N ->
  Bottle.post_data r w = (Raise (Exception AttributeError), w).
Proof.
  intros Htype Hsize. apply N.leb_gt in Hsize.
  unfold Bottle.post_data, Bottle.body_getvalue.
  now rewrite Htype, str_eqb_refl, Hsize.
Qed.

Lemma run_validate_fails (data : json) (r : reason) (w : world) :
  validate data = Raise r ->
  run_validate data w = (Raise (Exception (ValueError r)), w).
Proof. unfold run_validate. now intros ->. Qed.

(** C6: a JSON write and a CSV import whose data [validate] rejects both
    end in the 500 response carrying the validator's message; the file is
    neither opened for writing nor written, so the store is the same and
    [GET /data] answers as before. *)
Theorem rejected_write_leaves_store
  (req : request) (data : json) (r : reason)
  (table : list (list pystr)) (items : list json) (r' : reason) (w : world)
  (Htype : content_type req = APPLICATION_JSON)
  (Hbody : payload req = Document data)
  (Hinvalid : validate data = Raise r)
  (Hrows : unflatten table = Ok items)
  (Hinvalid' : validate (JArr items) = Raise r') :
  PostData.post_data req w = (Raise (HTTPResponse 500 (ValueError r)), w)
  /\ PostCsv.post_data (Some table) w
     = (Raise (HTTPResponse 500 (ValueError r')), w)
  /\ get_data (snd (PostData.post_data req w)) = get_data w
  /\ get_data (snd (PostCsv.post_data (Some table) w)) = get_data w.
Proof.
  assert (H1 : PostData.post_data req w
               = (Raise (HTTPResponse 500 (ValueError r)), w)).
  { unfold PostData.post_data. rewrite Htype, str_eqb_refl, Hbody.
    unfold try_except, bind. simpl json_load. unfold ret at 1.
    now rewrite (run_validate_fails _ w Hinvalid). }
  assert (H2 : PostCsv.post_data (Some table) w
               = (Raise (HTTPResponse 500 (ValueError r')), w)).
  { unfold PostCsv.post_data, bind at 1 2. unfold ret at 1.
    rewrite Hrows. simpl lift. unfold ret at 1.
    unfold try_except, bind.
    now rewrite (run_validate_fails _ w Hinvalid'). }
  rewrite H1, H2. auto.
Qed.

Lemma rejected_write_leaves_store_witness :
  let w := {| data_json := Some (Document (JArr [JObj [(py "name", JStr (py "r0"))]]));
              readable := true; writable := true; writes := [] |} in
  PostData.post_data {| content_type := APPLICATION_JSON;
                        payload := Document (JArr [JObj []; JObj []]) |} w
  = (Raise (HTTPResponse 500 (ValueError TooManyDefaults)), w)
  /\ PostCsv.post_data (Some [[py "stack"]; [py "r1"]]) w
     = (Raise (HTTPResponse 500 (ValueError InvalidStackShape)), w).
Proof.
  intros w.
  destruct (@rejected_write_leaves_store
              {| content_type := APPLICATION_JSON;
                 payload := Document (JArr [JObj []; JObj []]) |}
              (JArr [JObj []; JObj []]) TooManyDefaults
              [[py "stack"]; [py "r1"]]
              [JObj [(STACK, JStr (py "r1"))]] InvalidStackShape w
              eq_refl eq_refl eq_refl eq_refl eq_refl) as (H1 & H2 & _).
  split; assumption.
Defined.

(** C7 fails on the code: [GET /csv] has no [try]; with the document
    missing, unreadable, malformed or invalid the exception leaves the
    handler as it is, where [GET /data] on the same stores answers [[{}]] or
    raises the 500 response with the message. *)
Theorem get_csv_failures_escape (str_compound : json -> pystr) :
  let missing := {| data_json := None; readable := true; writable := true;
                    writes := [] |} in
  let unreadable := {| data_json := Some (Document (JArr [JObj []]));
                       readable := false; writable := true; writes := [] |} in
  let malformed := {| data_json := Some Malformed; readable := true;
                      writable := true; writes := [] |} in
  let invalid := {| data_json := Some (Document (JObj [(py "a", JStr (py "b"))]));
                    readable := true; writable := true; writes := [] |} in
  get_csv str_compound missing = (Raise (Exception IOError), missing)
  /\ get_csv str_compound unreadable = (Raise (Exception IOError), unreadable)
  /\ get_csv str_compound malformed
     = (Raise (Exception JSONDecodeError), malformed)
  /\ get_csv str_compound invalid
     = (Raise (Exception (ValueError ExpectingArrayOfObjects)), invalid)
  /\ get_data missing = (Ok (JsonBody (JArr [JObj []])), missing)
  /\ get_data unreadable = (Raise (HTTPResponse 500 IOError), unreadable)
  /\ get_data malformed = (Raise (HTTPResponse 500 JSONDecodeError), malformed)
  /\ get_data invalid
     = (Raise (HTTPResponse 500 (ValueError ExpectingArrayOfObjects)), invalid).
Proof. repeat split. Qed.

(** ** Splitting a column name *)

Lemma split_nonempty (sep : N) (k : pystr) : split sep k <> [].
Proof.
  destruct k as [|c r]; simpl; [discriminate|].
  destruct (N.eqb c sep); [discriminate|].
  destruct (split sep r); discriminate.
Qed.

Lemma split_cons_other (sep c : N) (r : pystr) :
  N.eqb c sep = false ->
  split sep (c :: r) = (c :: hd [] (split sep r)) :: tl (split sep r).
Proof.
  intros E. simpl. rewrite E.
  destruct (split sep r) eqn:Es; [now apply split_nonempty in Es | reflexivity].
Qed.

Lemma split_length (sep : N) (k : pystr) :
  List.length (split sep k) = S (count sep k).
Proof.
  induction k as [|c r IH]; [reflexivity|].
  destruct (N.eqb c sep) eqn:E.
  - simpl. rewrite E. simpl. now rewrite IH.
  - rewrite split_cons_other by exact E. simpl. rewrite E, <- IH.
    destruct (split sep r) eqn:Es; [now apply split_nonempty in Es | reflexivity].
Qed.

Lemma split_before_after (sep : N) (k : pystr) :
  split sep k
  = before sep k :: match count sep k with
                    | 0 => []
                    | S _ => split sep (after sep k)
                    end.
Proof.
  induction k as [|c r IH]; [reflexivity|].
  destruct (N.eqb c sep) eqn:E.
  - simpl. now rewrite E.
  - rewrite split_cons_other by exact E. simpl. rewrite E, IH. reflexivity.
Qed.

Lemma count_zero_no_slash (k : pystr) : count SLASH k = 0 <-> no_slash k = true.
Proof.
  unfold no_slash. induction k as [|c r IH]; simpl; [tauto|].
  destruct (N.eqb c SLASH); simpl; [split; discriminate | exact IH].
Qed.

Lemma split_no_slash (k : pystr) : no_slash k = true -> split SLASH k = [k].
Proof.
  intros H. apply count_zero_no_slash in H.
  rewrite split_before_after, H. f_equal.
  induction k as [|c r IH]; [reflexivity|]. simpl in *.
  destruct (N.eqb c SLASH); [discriminate|]. f_equal. auto.
Qed.

Lemma split_group_field (g f : pystr) :
  no_slash g = true -> no_slash f = true ->
  split SLASH (g ++ SLASH :: f) = [g; f].
Proof.
  intros Hg Hf. unfold no_slash in Hg.
  induction g as [|c r IH]; simpl.
  - now rewrite split_no_slash.
  - simpl in Hg.
    destruct (N.eqb c SLASH); [discriminate|]. simpl in Hg.
    now rewrite (IH Hg).
Qed.

Lemma split_one_inv (k a : pystr) :
  split SLASH k = [a] -> k = a /\ no_slash k = true.
Proof.
  intros H. pose proof (split_length SLASH k) as L. rewrite H in L. simpl in L.
  assert (Hk : no_slash k = true) by (apply count_zero_no_slash; lia).
  rewrite (split_no_slash _ Hk) in H. now injection H as <-.
Qed.

(** Exactly two parts: the name is [g/f] with no other separator. *)
Lemma split_two_inv (k a b : pystr) :
  split SLASH k = [a; b] ->
  k = a ++ SLASH :: b /\ no_slash a = true /\ no_slash b = true.
Proof.
  revert a. induction k as [|c r IH]; intros a; [discriminate|].
  destruct (N.eqb c SLASH) eqn:E.
  - simpl. rewrite E. intros [= <- H]. apply N.eqb_eq in E. subst c.
    destruct (split_one_inv _ H) as [-> Hb]. repeat split; auto.
  - rewrite split_cons_other by exact E.
    destruct (split SLASH r) as [|h [|h' t]] eqn:Es; simpl; try discriminate.
    intros [= <- <- ->].
    destruct (IH h eq_refl) as (-> & Hh & Hb).
    repeat split; auto.
    unfold no_slash in *. simpl. rewrite E. exact Hh.
Qed.

Lemma count_after (sep : N) (k : pystr) :
  count sep (after sep k) = pred (count sep k).
Proof.
  induction k as [|c r IH]; [reflexivity|]. simpl.
  destruct (N.eqb c sep); [reflexivity | exact IH].
Qed.

(** A name with exactly one separator splits into what is before it and
    what is after it. *)
Lemma split_count_one (k : pystr) :
  count SLASH k = 1 -> split SLASH k = [before SLASH k; after SLASH k].
Proof.
  intros C. rewrite split_before_after, C. f_equal.
  apply split_no_slash, count_zero_no_slash.
  rewrite count_after, C. reflexivity.
Qed.

Lemma count_group_field (g f : pystr) :
  no_slash g = true -> no_slash f = true -> count SLASH (g ++ SLASH :: f) = 1.
Proof.
  intros Hg Hf. pose proof (split_length SLASH (g ++ SLASH :: f)) as L.
  rewrite split_group_field in L by assumption. simpl in L. lia.
Qed.

(** ** One step of the import loop *)

(** C4 as stated fails: [a/b/c] has three parts and is kept as one
    top-level key, where a cut at the first separator would nest [b/c]
    under [a]. *)
Lemma unflatten_key_not_first_slash :
  ~ (forall cubic p, unflatten_key cubic p = Ok (spec_unflatten_key cubic p)).
Proof.
  intros H. specialize (H [] (py "a/b/c", py "v")). discriminate H.
Qed.

(** C4, as the code has it: the name is cut at every separator; when the
    cell is not empty and the name holds exactly one separator (either part
    may be empty), the field is assigned in the object under the group, a
    new object when the group is unbound; otherwise the whole name is a
    top-level key, set to [true] for the text [True], to the text when it is
    not empty, and left out when it is.  Keys already present keep their
    places.  The group is taken to be unbound or bound to an object. *)
Theorem unflatten_key_by_slash_count
  (cubic : odict json) (k v : pystr)
  (Hgroup : str_truthy v && Nat.eqb (count SLASH k) 1 = true ->
            forall x, od_get (before SLASH k) cubic = Some x ->
                      is_odict x = true) :
  exists cubic',
    unflatten_key cubic (k, v) = Ok cubic'
    /\ cubic'
       = (if str_truthy v && Nat.eqb (count SLASH k) 1 then
            od_set (before SLASH k)
              (JObj (od_set (after SLASH k) (JStr v)
                       match od_get (before SLASH k) cubic with
                       | Some (JObj o) => o
                       | _ => []
                       end))
              cubic
          else if str_eqb v TRUE_TEXT then od_set k (JBool true) cubic
          else if str_truthy v then od_set k (JStr v) cubic
          else cubic)
    /\ (exists added, od_keys cubic' = od_keys cubic ++ added)
    /\ (forall o, od_get (before SLASH k) cubic = Some (JObj o) ->
        str_truthy v && Nat.eqb (count SLASH k) 1 = true ->
        exists o' added,
          od_get (before SLASH k) cubic' = Some (JObj o')
          /\ od_keys o' = od_keys o ++ added).
Proof.
  assert (Hkeys : forall (V : Type) (key : pystr) (x : V) (d : odict V),
             exists added, od_keys (od_set key x d) = od_keys d ++ added).
  { intros V key x d. rewrite od_keys_set.
    destruct (od_in key d); [exists []; now rewrite app_nil_r | now exists [key]]. }
  unfold unflatten_key. cbn [fst snd].
  rewrite split_length.
  change (Nat.eqb (S (count SLASH k)) 2) with (Nat.eqb (count SLASH k) 1).
  destruct (str_truthy v && Nat.eqb (count SLASH k) 1) eqn:C.
  - assert (C1 : count SLASH k = 1)
      by (apply andb_true_iff in C; destruct C as [_ C]; now apply Nat.eqb_eq).
    rewrite (split_count_one _ C1). cbn [nth].
    specialize (Hgroup eq_refl).
    destruct (od_get (before SLASH k) cubic) as [x|] eqn:G.
    + specialize (Hgroup x eq_refl).
      destruct x as [| | | | | |o]; try discriminate Hgroup.
      eexists. split; [reflexivity|]. split; [reflexivity|]. split.
      * apply Hkeys.
      * intros o0 [= <-] _. rewrite od_get_set_same.
        destruct (Hkeys _ (after SLASH k) (JStr v) o) as [added Ha].
        now exists (od_set (after SLASH k) (JStr v) o), added.
    + eexists. split; [reflexivity|]. split; [reflexivity|]. split.
      * apply Hkeys.
      * discriminate.
  - destruct (str_eqb v TRUE_TEXT); [|destruct (str_truthy v)];
      (eexists; split; [reflexivity|]; split; [reflexivity|]; split;
       [try apply Hkeys; exists []; now rewrite app_nil_r
       | intros ? _ [=]]).
Qed.

Lemma unflatten_key_by_slash_count_witness :
  exists cubic',
    unflatten_key [(STACK, JObj [(py "ip", JStr (py "1.2.3.4"))])]
                  (py "stack/mask", py "24") = Ok cubic'
    /\ cubic' = [(STACK, JObj [(py "ip", JStr (py "1.2.3.4"));
                               (py "mask", JStr (py "24"))])].
Proof.
  destruct (@unflatten_key_by_slash_count
              [(STACK, JObj [(py "ip", JStr (py "1.2.3.4"))])]
              (py "stack/mask") (py "24")) as (c & H1 & H2 & _).
  - intros _ x [= <-]. reflexivity.
  - exists c. split; [exact H1 | exact H2].
Defined.

(** ** The exported table *)

Lemma od_set_fold_fresh {V : Type} (ps acc : odict V) :
  NoDup (od_keys (acc ++ ps)) ->
  fold_left (fun d p => od_set (fst p) (snd p) d) ps acc = acc ++ ps.
Proof.
  revert acc. induction ps as [|[k v] ps IH]; intros acc ND; simpl.
  - now rewrite app_nil_r.
  - assert (Hfresh : od_get k acc = None).
    { apply od_get_None_keys. intros Hin.
      unfold od_keys in ND. rewrite map_app in ND. simpl in ND.
      apply NoDup_remove_2 in ND. apply ND. apply in_or_app. now left. }
    cbn [fst snd]. rewrite od_set_fresh by exact Hfresh.
    rewrite IH, <- app_assoc; [reflexivity|].
    now rewrite <- app_assoc.
Qed.

Lemma od_of_pairs_NoDup {V : Type} (ps : odict V) :
  NoDup (od_keys ps) -> od_of_pairs ps = ps.
Proof. intros ND. unfold od_of_pairs. now rewrite od_set_fold_fresh. Qed.

Lemma od_fromkeys_fold (ks : list pystr) (acc : odict unit) :
  NoDup (od_keys acc) ->
  NoDup (od_keys (fold_left (fun d k => od_set k tt d) ks acc))
  /\ forall k, In k (od_keys (fold_left (fun d k => od_set k tt d) ks acc))
               <-> In k (od_keys acc) \/ In k ks.
Proof.
  revert acc. induction ks as [|k0 ks IH]; intros acc ND; simpl.
  - split; [exact ND | tauto].
  - destruct (IH (od_set k0 tt acc) (@od_set_NoDup _ k0 tt acc ND)) as [H1 H2].
    split; [exact H1|]. intros k. rewrite H2, od_keys_set.
    unfold od_in. destruct (od_get k0 acc) eqn:E.
    + apply od_get_Some_In in E. apply (in_map fst) in E. simpl in E.
      split; [tauto | intros [H|[<-|H]]; auto].
    + rewrite in_app_iff. simpl. tauto.
Qed.

Lemma columns_NoDup (rows : list (odict json)) : NoDup (columns rows).
Proof. unfold columns, od_fromkeys. apply od_fromkeys_fold. constructor. Qed.

Lemma columns_In (rows : list (odict json)) (k : pystr) :
  In k (columns rows) <-> exists row, In row rows /\ In k (od_keys row).
Proof.
  unfold columns, od_fromkeys.
  destruct (@od_fromkeys_fold (flat_map (@od_keys json) rows) [])
    as [_ H]; [constructor|].
  rewrite H, in_flat_map. simpl. tauto.
Qed.

Section Cells.
Variable str_compound : json -> pystr.

Lemma dict_to_list_cells (cols : list pystr) (flat : odict json) :
  incl (od_keys flat) cols ->
  dict_to_list str_compound cols flat = Some (map (cell str_compound flat) cols).
Proof.
  intros Hin. unfold dict_to_list.
  replace (forallb _ (od_keys flat)) with true; [reflexivity|].
  symmetry. apply forallb_forall. intros k Hk.
  apply existsb_exists. exists k. split; [now apply Hin | apply str_eqb_refl].
Qed.

Lemma writerows_cells (cols : list pystr) (rows : list (odict json)) :
  (forall row, In row rows -> incl (od_keys row) cols) ->
  writerows str_compound cols rows
  = Some (map (fun flat => map (cell str_compound flat) cols) rows).
Proof.
  induction rows as [|r rows IH]; intros H; simpl; [reflexivity|].
  rewrite dict_to_list_cells by (apply H; now left).
  rewrite IH by (intros row Hr; apply H; now right). reflexivity.
Qed.

(** The writer never meets a key outside its field names. *)
Lemma export_table_cells (data : list json) :
  export_table str_compound data
  = Some (columns (flat_data data)
          :: map (fun flat => map (cell str_compound flat) (columns (flat_data data)))
                 (flat_data data)).
Proof.
  unfold export_table. rewrite writerows_cells; [reflexivity|].
  intros row Hr k Hk. apply columns_In. now exists row.
Qed.

End Cells.

Lemma Forall2_map_r {A B : Type} (R : A -> B -> Prop) (f : A -> B) (l : list A) :
  (forall x, In x l -> R x (f x)) -> Forall2 R l (map f l).
Proof.
  induction l as [|x l IH]; intros H; simpl; constructor.
  - apply H. now left.
  - apply IH. intros y Hy. apply H. now right.
Qed.

(** C3, as the code has it: in the exported table every row has one field
    per column; [true] is written as [True], [false] as [False], and a key
    the row does not have (or a null) as the empty field. *)
Theorem export_renders_booleans (str_compound : json -> pystr)
  (data : list json) :
  exists table,
    export_table str_compound data = Some table
    /\ rendered_by code_rendering data table.
Proof.
  eexists. split; [apply export_table_cells|].
  eexists. split; [reflexivity|].
  apply Forall2_map_r. intros flat _.
  apply Forall2_map_r. intros col _.
  unfold cell, od_get_default, code_rendering.
  destruct (od_get col flat) as [[|[|]| | | | |]|]; simpl; auto.
Qed.

(** C3 as stated fails: [false] is written as [False], not as the empty
    field. *)
Lemma export_false_not_empty :
  ~ (forall str_compound data table,
       export_table str_compound data = Some table ->
       rendered_by spec_rendering data table).
Proof.
  intros H.
  destruct (H no_repr [JObj [(py "enabled", JBool false)]] _ eq_refl)
    as (rows & Ht & Hr).
  vm_compute in Ht. injection Ht as <-.
  inversion Hr as [|? ? ? ? Hrow _]; subst.
  vm_compute in Hrow. inversion Hrow as [|? ? ? ? Hc _]; subst.
  discriminate Hc.
Qed.

(** ** Export followed by import *)


Lemma unique_NoDup (ks : list pystr) : unique ks = true <-> NoDup ks.
Proof.
  induction ks as [|k r IH]; simpl.
  - split; [constructor | reflexivity].
  - rewrite andb_true_iff, negb_true_iff, IH, NoDup_cons_iff.
    assert (E : existsb (str_eqb k) r = false <-> ~ In k r).
    { split.
      - intros E Hin.
        assert (existsb (str_eqb k) r = true)
          by (apply existsb_exists; exists k; split;
              [exact Hin | apply str_eqb_refl]).
        congruence.
      - intros Hn. destruct (existsb (str_eqb k) r) eqn:E; [|reflexivity].
        apply existsb_exists in E. destruct E as (x & Hx & Ex).
        apply str_eqb_eq in Ex. subst. contradiction. }
    tauto.
Qed.

Lemma od_get_app {V : Type} (k : pystr) (a b : odict V) :
  od_get k (a ++ b)
  = match od_get k a with Some v => Some v | None => od_get k b end.
Proof.
  induction a as [|[k0 v0] a IH]; simpl; [reflexivity|].
  destruct (str_eqb k k0); auto.
Qed.

Lemma od_get_Some_keys {V : Type} (k : pystr) (v : V) (d : odict V) :
  od_get k d = Some v -> In k (od_keys d).
Proof.
  intros H. apply od_get_Some_In in H. apply (in_map fst) in H. exact H.
Qed.

Lemma od_get_keys_Some {V : Type} (k : pystr) (d : odict V) :
  In k (od_keys d) -> exists v, od_get k d = Some v.
Proof.
  intros H. destruct (od_get k d) as [v|] eqn:E; [now exists v|].
  apply od_get_None_keys in E. contradiction.
Qed.




(** *** The flat row of an entry *)

Lemma entry_ok_tail (p : pystr * json) (my : odict json) :
  entry_ok (p :: my) -> entry_ok my.
Proof.
  intros [ND F]. split; [now inversion ND | now inversion F].
Qed.

Lemma before_no_slash (k : pystr) : no_slash k = true -> before SLASH k = k.
Proof.
  unfold no_slash. induction k as [|c r IH]; simpl; [reflexivity|].
  destruct (N.eqb c SLASH); simpl; [discriminate|]. intros H. now rewrite IH.
Qed.

Lemma before_group_field (g f : pystr) :
  no_slash g = true -> before SLASH (g ++ SLASH :: f) = g.
Proof.
  unfold no_slash. induction g as [|c r IH]; simpl; [reflexivity|].
  destruct (N.eqb c SLASH); simpl; [discriminate|]. intros H. now rewrite IH.
Qed.

Lemma no_slash_group_field (g f : pystr) : no_slash (g ++ SLASH :: f) = false.
Proof.
  unfold no_slash. rewrite existsb_app. simpl.
  now rewrite orb_true_r.
Qed.

Lemma flat_piece_keys (p : pystr * json) (key : pystr) :
  no_slash (fst p) = true ->
  In key (od_keys (flat_piece p)) -> before SLASH key = fst p.
Proof.
  intros Hk. unfold flat_piece, od_keys.
  destruct (snd p) as [| | | | | |o]; simpl;
    try (intros [<-|[]]; now apply before_no_slash).
  rewrite map_map, in_map_iff. simpl. intros (q & <- & _).
  now apply before_group_field.
Qed.

Lemma flat_list_keys (my : odict json) (key : pystr) :
  entry_ok my ->
  In key (od_keys (flat_list my)) -> In (before SLASH key) (od_keys my).
Proof.
  intros [_ F]. unfold flat_list, od_keys.
  rewrite in_map_iff. intros ([k v] & <- & Hin).
  apply in_flat_map in Hin. destruct Hin as (p & Hp & Hin).
  rewrite Forall_forall in F. destruct (F p Hp) as [Hk _].
  apply in_map_iff. exists p. split; [|exact Hp].
  symmetry. apply flat_piece_keys; [exact Hk|].
  apply in_map_iff. now exists (k, v).
Qed.

Lemma flat_piece_NoDup (p : pystr * json) :
  match snd p with JObj o => NoDup (od_keys o) | _ => True end ->
  NoDup (od_keys (flat_piece p)).
Proof.
  unfold flat_piece, od_keys.
  destruct (snd p) as [| | | | | |o]; simpl;
    try (intros _; constructor; [intros [] | constructor]).
  intros ND. rewrite map_map. simpl.
  rewrite <- (map_map fst (fun f => fst p ++ SLASH :: f)).
  apply Injective_map_NoDup; [|exact ND].
  intros a b H. apply app_inv_head in H. now injection H.
Qed.

Lemma flat_list_NoDup (my : odict json) :
  entry_ok my -> NoDup (od_keys (flat_list my)).
Proof.
  induction my as [|p my IH]; intros Hok; [constructor|].
  pose proof (entry_ok_tail Hok) as Hok'.
  destruct Hok as [ND F]. inversion ND as [|? ? Hn ND']; subst.
  inversion F as [|? ? [Hk Hv] F']; subst.
  unfold flat_list, od_keys. simpl. rewrite map_app.
  apply NoDup_app.
  - apply flat_piece_NoDup. destruct (snd p); auto. apply Hv.
  - now apply IH.
  - intros key H1 H2. apply Hn.
    rewrite <- (flat_piece_keys p key Hk H1).
    now apply flat_list_keys.
Qed.

Lemma fold_od_set_map {A V : Type} (f : A -> pystr) (g : A -> V)
  (l : list A) (acc : odict V) :
  fold_left (fun d a => od_set (f a) (g a) d) l acc
  = fold_left (fun d p => od_set (fst p) (snd p) d)
              (map (fun a => (f a, g a)) l) acc.
Proof.
  revert acc. induction l as [|a l IH]; intros acc; simpl; auto.
Qed.

Lemma flatten_key_piece (acc : odict json) (p : pystr * json) :
  NoDup (od_keys (acc ++ flat_piece p)) ->
  flatten_key acc p = acc ++ flat_piece p.
Proof.
  unfold flatten_key, flat_piece, flatten_nested.
  destruct (snd p) as [| | | | | |o]; intros ND;
    try (apply (od_set_fold_fresh [(fst p, _)] acc ND)).
  rewrite (fold_od_set_map (fun q => fst p ++ SLASH :: fst q) snd).
  now apply od_set_fold_fresh.
Qed.

Lemma flatten_fold_flat_list (my acc : odict json) :
  NoDup (od_keys (acc ++ flat_list my)) ->
  fold_left flatten_key my acc = acc ++ flat_list my.
Proof.
  revert acc. induction my as [|p my IH]; intros acc ND; simpl.
  - now rewrite app_nil_r.
  - unfold flat_list in *. simpl in ND. rewrite app_assoc in ND.
    rewrite flatten_key_piece.
    + rewrite IH by exact ND. now rewrite <- app_assoc.
    + unfold od_keys in *. rewrite map_app in ND.
      now apply NoDup_app_remove_r in ND.
Qed.

(** With unique, separator-free keys every assignment of the flattening
    loop adds a new column. *)
Lemma flatten_entry_flat_list (my : odict json) :
  entry_ok my -> flatten_entry my = flat_list my.
Proof.
  intros Hok. unfold flatten_entry.
  rewrite flatten_fold_flat_list; [reflexivity|].
  now apply flat_list_NoDup.
Qed.

Lemma group_field_inj (g g' f f' : pystr) :
  no_slash g = true -> no_slash g' = true ->
  g ++ SLASH :: f = g' ++ SLASH :: f' -> g = g' /\ f = f'.
Proof.
  intros Hg Hg' H.
  assert (E : g = g').
  { rewrite <- (before_group_field g f Hg), H. now apply before_group_field. }
  subst g'. apply app_inv_head in H. split; [reflexivity | congruence].
Qed.

Lemma od_get_prefixed (k0 g f : pystr) (o : odict json) :
  no_slash k0 = true -> no_slash g = true ->
  od_get (g ++ SLASH :: f) (map (fun q => (k0 ++ SLASH :: fst q, snd q)) o)
  = if str_eqb g k0 then od_get f o else None.
Proof.
  intros Hk Hg. induction o as [|[f0 v0] o IH]; simpl.
  - now destruct (str_eqb g k0).
  - str_cases (g ++ SLASH :: f) (k0 ++ SLASH :: f0).
    + destruct (@group_field_inj g k0 f f0 Hg Hk E) as [-> ->].
      now rewrite !str_eqb_refl.
    + rewrite IH. str_cases g k0; [|reflexivity]. subst k0.
      str_cases f f0; [congruence | reflexivity].
Qed.

Lemma od_get_prefixed_none (k0 k : pystr) (o : odict json) :
  no_slash k = true ->
  od_get k (map (fun q => (k0 ++ SLASH :: fst q, snd q)) o) = None.
Proof.
  intros Hk. apply od_get_None_keys. unfold od_keys.
  rewrite map_map, in_map_iff. simpl. intros (q & E & _).
  rewrite <- E, no_slash_group_field in Hk. discriminate.
Qed.

(** A separator-free column holds the scalar under that key. *)
Lemma flat_list_get_scalar (my : odict json) (k : pystr) :
  entry_ok my -> no_slash k = true ->
  od_get k (flat_list my)
  = match od_get k my with Some (JObj _) => None | x => x end.
Proof.
  intros Hok Hk. induction my as [|[k0 v0] my IH]; [reflexivity|].
  specialize (IH (entry_ok_tail Hok)).
  destruct Hok as [ND _]. inversion ND as [|? ? Hn _]; subst.
  apply od_get_None_keys in Hn.
  unfold flat_list in *. simpl flat_map. rewrite od_get_app, IH.
  unfold flat_piece. simpl.
  destruct v0 as [| | | | | |o]; simpl;
    try (str_cases k k0; [reflexivity | reflexivity]).
  rewrite od_get_prefixed_none by exact Hk.
  str_cases k k0; [subst; now rewrite Hn | reflexivity].
Qed.

(** The column [g/f] holds the field [f] of the object under [g]. *)
Lemma flat_list_get_nested (my : odict json) (g f : pystr) :
  entry_ok my -> no_slash g = true ->
  od_get (g ++ SLASH :: f) (flat_list my)
  = match od_get g my with Some (JObj o) => od_get f o | _ => None end.
Proof.
  intros Hok Hg. induction my as [|[k0 v0] my IH]; [reflexivity|].
  specialize (IH (entry_ok_tail Hok)).
  destruct Hok as [ND F]. inversion ND as [|? ? Hn _]; subst.
  inversion F as [|? ? [Hk0 _] _]; subst. simpl in Hk0.
  apply od_get_None_keys in Hn.
  unfold flat_list in *. simpl flat_map. rewrite od_get_app, IH.
  unfold flat_piece. simpl.
  assert (Hne : str_eqb (g ++ SLASH :: f) k0 = false).
  { apply str_eqb_neq. intros E. rewrite <- E, no_slash_group_field in Hk0.
    discriminate. }
  destruct v0 as [| | | | | |o]; simpl; rewrite ?Hne;
    try (str_cases g k0; [subst; now rewrite Hn | reflexivity]).
  rewrite od_get_prefixed by assumption.
  str_cases g k0; [|reflexivity]. subst. rewrite Hn.
  now destruct (od_get f o).
Qed.

(** Every column of an entry is a key, or [g/f] for a key [g] and a field
    [f]. *)
Lemma flat_list_key_form (my : odict json) (key : pystr) :
  entry_ok my ->
  In key (od_keys (flat_list my)) ->
  no_slash key = true
  \/ exists g f, key = g ++ SLASH :: f
                 /\ no_slash g = true /\ no_slash f = true.
Proof.
  intros [_ F]. unfold flat_list, od_keys.
  rewrite in_map_iff. intros ([k v] & <- & Hin).
  apply in_flat_map in Hin. destruct Hin as ([k0 v0] & Hp & Hin).
  rewrite Forall_forall in F. destruct (F _ Hp) as [Hk Hv].
  unfold flat_piece in Hin. simpl in *.
  destruct v0 as [| | | | | |o];
    try (destruct Hin as [[= <- <-]|[]]; now left).
  apply in_map_iff in Hin. destruct Hin as ([f x] & [= <- <-] & Hq).
  right. exists k0, f. repeat split; auto.
  destruct Hv as [_ Fo]. rewrite Forall_forall in Fo.
  now destruct (Fo _ Hq).
Qed.

(** *** The import loop on the cells of a row *)

Lemma unflatten_keys_app (cubic : odict json) (a b : list (pystr * pystr)) :
  unflatten_keys cubic (a ++ b)
  = match unflatten_keys cubic a with
    | Ok cubic' => unflatten_keys cubic' b
    | Raise e => Raise e
    end.
Proof.
  revert cubic. induction a as [|p a IH]; intros cubic; simpl; [reflexivity|].
  destruct (unflatten_key cubic p); auto.
Qed.

(** An empty cell changes nothing. *)
Lemma unflatten_keys_skip_blank (cubic : odict json)
  (ps : list (pystr * pystr)) :
  unflatten_keys cubic ps
  = unflatten_keys cubic (filter (fun p => str_truthy (snd p)) ps).
Proof.
  revert cubic. induction ps as [|[k v] ps IH]; intros cubic; [reflexivity|].
  simpl filter. destruct v as [|c v]; simpl str_truthy.
  - cbn [unflatten_keys]. change (unflatten_key cubic (k, [])) with (Ok (E:=exn) cubic).
    apply IH.
  - cbn [unflatten_keys].
    match goal with
    | |- match ?x with _ => _ end = _ => destruct x; [apply IH | reflexivity]
    end.
Qed.

Lemma regular_prefix (ps : list (pystr * pystr)) (p : pystr * pystr) :
  regular (ps ++ [p]) -> regular ps.
Proof.
  intros [ND H]. split.
  - unfold od_keys in *. rewrite map_app in ND.
    now apply NoDup_app_remove_r in ND.
  - intros k s Hin.
    destruct (H k s (in_or_app _ _ _ (or_introl Hin))) as [Hs Hk].
    split; [exact Hs|]. destruct Hk as [Hk|(g & f & E & Hg & Hf & Hn)].
    + now left.
    + right. exists g, f. repeat split; auto.
      intros Hg'. apply Hn. unfold od_keys in *. rewrite map_app.
      apply in_or_app. now left.
Qed.

Lemma fields_app (g : pystr) (a b : list (pystr * pystr)) :
  fields g (a ++ b) = fields g a ++ fields g b.
Proof. unfold fields. apply flat_map_app. Qed.

Lemma fields_keys (g f : pystr) (ps : list (pystr * pystr)) :
  In f (od_keys (fields g ps)) -> In (g ++ SLASH :: f) (od_keys ps).
Proof.
  unfold fields, od_keys. rewrite !in_map_iff.
  intros ([f' x] & <- & Hin). apply in_flat_map in Hin.
  destruct Hin as ([k s] & Hp & Hin). simpl in Hin.
  destruct (split SLASH k) as [|a [|b [|c t]]] eqn:Es; try contradiction.
  str_cases a g; [|contradiction]. subst a.
  destruct Hin as [[= <- <-]|[]].
  apply split_two_inv in Es. destruct Es as (-> & _ & _).
  now exists (g ++ SLASH :: b, s).
Qed.

Lemma fields_single_scalar (g k s : pystr) :
  no_slash k = true -> fields g [(k, s)] = [].
Proof. intros Hk. unfold fields. simpl. now rewrite split_no_slash. Qed.

Lemma fields_single_nested (g g' f s : pystr) :
  no_slash g' = true -> no_slash f = true ->
  fields g [(g' ++ SLASH :: f, s)]
  = if str_eqb g' g then [(f, JStr s)] else [].
Proof.
  intros Hg Hf. unfold fields. simpl. rewrite split_group_field by assumption.
  destruct (str_eqb g' g); reflexivity.
Qed.

Lemma od_get_snoc_fresh {V : Type} (k key : pystr) (v : V) (d : odict V) :
  ~ In key (od_keys d) ->
  od_get k (d ++ [(key, v)])
  = if str_eqb k key then Some v else od_get k d.
Proof.
  intros Hn. rewrite od_get_app. simpl.
  str_cases k key.
  - subst. apply od_get_None_keys in Hn. now rewrite Hn.
  - now destruct (od_get k d).
Qed.

Lemma NoDup_snoc_fresh {A : Type} (l : list A) (x : A) :
  NoDup (l ++ [x]) -> ~ In x l.
Proof.
  intros ND Hin. apply NoDup_remove_2 in ND. apply ND.
  rewrite app_nil_r. exact Hin.
Qed.

(** The loop never fails on regular cells, and what it leaves under each
    key is [top]. *)
Lemma unflatten_keys_regular (ps : list (pystr * pystr)) :
  regular ps ->
  exists cubic,
    unflatten_keys [] ps = Ok cubic
    /\ NoDup (od_keys cubic)
    /\ forall k, od_get k cubic = top k ps.
Proof.
  induction ps as [|[key s] ps IH] using rev_ind; intros Hreg.
  - exists []. split; [reflexivity|]. split; [constructor|].
    intros k. unfold top. simpl. now destruct (no_slash k).
  - destruct (IH (@regular_prefix _ _ Hreg)) as (cubic & Hrun & ND & Hget).
    rewrite unflatten_keys_app, Hrun. cbn [unflatten_keys].
    destruct Hreg as [NDk Hform].
    assert (Hlast : In (key, s) (ps ++ [(key, s)]))
      by (apply in_or_app; right; now left).
    destruct (Hform key s Hlast) as [Hs Hk].
    assert (Hfresh : ~ In key (od_keys ps)).
    { unfold od_keys in NDk. rewrite map_app in NDk. simpl in NDk.
      now apply NoDup_snoc_fresh in NDk. }
    destruct Hk as [Hk | (g & f & -> & Hg & Hf & Hng)].
    + assert (Hstep : unflatten_key cubic (key, s)
                      = Ok (od_set key (scalar_of_text s) cubic)).
      { unfold unflatten_key. cbn [fst snd].
        rewrite (split_no_slash _ Hk). cbn [List.length Nat.eqb].
        rewrite Hs, andb_false_r. unfold scalar_of_text.
        destruct (str_eqb s TRUE_TEXT); reflexivity. }
      rewrite Hstep. eexists. split; [reflexivity|].
      split; [apply od_set_NoDup; exact ND|].
      intros k. unfold top. str_cases k key.
      * subst. rewrite od_get_set_same, Hk.
        rewrite od_get_snoc_fresh by exact Hfresh.
        now rewrite str_eqb_refl.
      * rewrite od_get_set_other by exact E. rewrite Hget. unfold top.
        rewrite od_get_snoc_fresh by exact Hfresh.
        apply str_eqb_neq in E. rewrite E.
        rewrite fields_app, fields_single_scalar by exact Hk.
        now rewrite app_nil_r.
    + assert (Hngp : ~ In g (od_keys ps)).
      { intros Hin. apply Hng. unfold od_keys. rewrite map_app.
        apply in_or_app. now left. }
      assert (Hgcub : od_get g cubic
                      = match fields g ps with
                        | [] => None
                        | fs => Some (JObj fs)
                        end).
      { rewrite Hget. unfold top. rewrite Hg.
        apply od_get_None_keys in Hngp. now rewrite Hngp. }
      assert (Hfnew : od_get f (fields g ps) = None).
      { apply od_get_None_keys. intros Hin. apply fields_keys in Hin.
        contradiction. }
      assert (Hstep : unflatten_key cubic (g ++ SLASH :: f, s)
                      = Ok (od_set g (JObj (fields g ps ++ [(f, JStr s)]))
                                   cubic)).
      { unfold unflatten_key. cbn [fst snd].
        rewrite split_group_field by assumption.
        cbn [List.length Nat.eqb nth]. rewrite Hs, Hgcub. cbn [andb].
        destruct (fields g ps) as [|q fs] eqn:Ef; [reflexivity|].
        now rewrite (@od_set_fresh _ f (JStr s) (q :: fs) Hfnew). }
      rewrite Hstep. eexists. split; [reflexivity|].
      split; [apply od_set_NoDup; exact ND|].
      assert (Hgnone : od_get g (ps ++ [(g ++ SLASH :: f, s)]) = None)
        by (now apply od_get_None_keys).
      intros k. unfold top. destruct (no_slash k) eqn:Hnk.
      * str_cases k g.
        -- subst k. rewrite od_get_set_same, Hgnone.
           rewrite fields_app, fields_single_nested by assumption.
           rewrite str_eqb_refl. now destruct (fields g ps).
        -- rewrite od_get_set_other by exact E. rewrite Hget. unfold top.
           rewrite Hnk, od_get_snoc_fresh by exact Hfresh.
           assert (E1 : str_eqb k (g ++ SLASH :: f) = false).
           { apply str_eqb_neq. intros ->.
             rewrite no_slash_group_field in Hnk. discriminate. }
           rewrite E1, fields_app, fields_single_nested by assumption.
           assert (E2 : str_eqb g k = false)
             by (apply str_eqb_neq; congruence).
           now rewrite E2, app_nil_r.
      * rewrite od_get_set_other by (intros ->; congruence).
        rewrite Hget. unfold top. now rewrite Hnk.
Qed.

Lemma fields_cons (g : pystr) (p : pystr * pystr) (ps : list (pystr * pystr)) :
  fields g (p :: ps) = fields g [p] ++ fields g ps.
Proof. apply (fields_app g [p] ps). Qed.

Lemma fields_get (g f : pystr) (ps : list (pystr * pystr)) :
  no_slash g = true ->
  od_get f (fields g ps)
  = if no_slash f
    then option_map JStr (od_get (g ++ SLASH :: f) ps)
    else None.
Proof.
  intros Hg. induction ps as [|[key s] ps IH].
  - simpl. now destruct (no_slash f).
  - rewrite (fields_cons g (key, s) ps).
    rewrite od_get_app, IH. clear IH. cbn [od_get].
    unfold fields. cbn [flat_map fst snd]. rewrite app_nil_r.
    destruct (split SLASH key) as [|a [|b [|c t]]] eqn:Es; cbn [od_get].
    + now apply split_nonempty in Es.
    + apply split_one_inv in Es. destruct Es as [_ Hk].
      destruct (no_slash f) eqn:Hf; [|reflexivity].
      assert (E : str_eqb (g ++ SLASH :: f) key = false).
      { apply str_eqb_neq. intros <-.
        rewrite no_slash_group_field in Hk. discriminate. }
      now rewrite E.
    + apply split_two_inv in Es. destruct Es as (-> & Ha & Hb).
      str_cases a g.
      * subst a. cbn [od_get]. str_cases f b.
        -- subst b. now rewrite Hb, str_eqb_refl.
        -- destruct (no_slash f) eqn:Hf; [|reflexivity].
           assert (E1 : str_eqb (g ++ SLASH :: f) (g ++ SLASH :: b) = false).
           { apply str_eqb_neq. intros H. apply app_inv_head in H. congruence. }
           now rewrite E1.
      * cbn [od_get]. destruct (no_slash f) eqn:Hf; [|reflexivity].
        assert (E1 : str_eqb (g ++ SLASH :: f) (a ++ SLASH :: b) = false).
        { apply str_eqb_neq. intros H.
          destruct (@group_field_inj g a f b Hg Ha H). congruence. }
        now rewrite E1.
    + destruct (no_slash f) eqn:Hf; [|reflexivity].
      assert (E : str_eqb (g ++ SLASH :: f) key = false).
      { apply str_eqb_neq. intros <-.
        rewrite split_group_field in Es by assumption. discriminate. }
      now rewrite E.
Qed.

Lemma fields_NoDup (g : pystr) (ps : list (pystr * pystr)) :
  NoDup (od_keys ps) -> NoDup (od_keys (fields g ps)).
Proof.
  induction ps as [|[key s] ps IH]; intros ND; [constructor|].
  inversion ND as [|? ? Hn ND']; subst.
  rewrite (fields_cons g (key, s) ps).
  unfold fields at 1. cbn [flat_map fst snd]. rewrite app_nil_r.
  destruct (split SLASH key) as [|a [|b [|c t]]] eqn:Es; simpl; auto.
  str_cases a g; simpl; auto. subst a.
  apply split_two_inv in Es. destruct Es as (-> & _ & _).
  constructor; [|now apply IH].
  intros Hin. apply Hn. now apply fields_keys.
Qed.




Lemma existsb_str_In (k : pystr) (l : list pystr) :
  In k l -> existsb (str_eqb k) l = true.
Proof.
  intros H. apply existsb_exists. exists k. split; [exact H | apply str_eqb_refl].
Qed.

Section Cells_of_a_row.
Variable h : pystr -> pystr.




End Cells_of_a_row.

(** *** One entry, exported and imported *)




(** *** The order of the keys *)








Section Entry_round_trip.
Variable str_compound : json -> pystr.
Variable my : odict json.
Variable cols : list pystr.
Hypothesis Hok : entry_ok my.
Hypothesis Hcols : NoDup cols.
Hypothesis Hincl : incl (od_keys (flat_list my)) cols.

Let F := flat_list my.
Let P := filled (cell str_compound F) cols.






End Entry_round_trip.

(** *** The whole collection *)






(** The second entry has [b] before [a]; it comes back with [a] first,
    as the columns stand. *)
Example round_trip_key_order :
  let data := [JObj [(py "a", JStr (py "1"))];
               JObj [(py "b", JStr (py "2")); (py "a", JStr (py "3"))]] in
  export_table no_repr data
  = Some [[py "a"; py "b"]; [py "1"; []]; [py "3"; py "2"]]
  /\ unflatten [[py "a"; py "b"]; [py "1"; []]; [py "3"; py "2"]]
     = Ok [JObj [(py "a", JStr (py "1"))];
           JObj [(py "a", JStr (py "3")); (py "b", JStr (py "2"))]].
Proof. split; reflexivity. Qed.

Example round_trip_sample_back :
  match export_table no_repr round_trip_sample with
  | Some table => unflatten table
  | None => Ok []
  end
  = Ok [JObj [(STACK, JObj [(py "ip", JStr (py "1.2.3.4"));
                            (py "dhcp", JStr (py "True"))]);
              (py "enabled", JBool true);
              (py "debug", JStr (py "False"));
              (py "vlan", JStr (py "10"))];
        JObj [(STACK, JObj [(py "ip", JStr (py "1.2.3.5"))]);
              (py "enabled", JBool true)]].
Proof. reflexivity. Qed.

Example str_int_samples :
  str_int 0 = py "0" /\ str_int 10 = py "10" /\ str_int (-12) = py "-12".
Proof. repeat split. Qed.

(** * Further properties of the code *)

(** ** Which collections [validate] accepts *)

Lemma flat_map_nil_iff {A B : Type} (f : A -> list B) (l : list A) :
  flat_map f l = [] <-> Forall (fun x => f x = []) l.
Proof.
  induction l as [|x l IH]; simpl.
  - split; [constructor | reflexivity].
  - split.
    + intros H. apply app_eq_nil in H. destruct H as [H1 H2].
      constructor; [exact H1 | now apply IH].
    + intros H. inversion H as [|? ? H1 H2]; subst.
      rewrite H1. simpl. now apply IH.
Qed.

Lemma validate_ok_clean (l : list json) :
  validate (JArr l) = Ok tt
  <-> flat_map violations l = []
      /\ List.length (filter lacks_stack l) <= 1.
Proof.
  rewrite validate_by_violations.
  destruct (flat_map violations l) as [|r rs].
  - destruct (Nat.ltb 1 (List.length (filter lacks_stack l))) eqn:E.
    + apply Nat.ltb_lt in E. split; [discriminate | intros [_ H]; lia].
    + apply Nat.ltb_ge in E. split; [intros _; split; [reflexivity | exact E]
                                    | reflexivity].
  - split; [discriminate | intros [H _]; discriminate].
Qed.

Lemma existsb_false_iff {A : Type} (f : A -> bool) (l : list A) :
  existsb f l = false <-> forall x, In x l -> f x = false.
Proof.
  induction l as [|a l IH]; simpl.
  - split; [intros _ x [] | reflexivity].
  - rewrite orb_false_iff, IH. split.
    + intros [Ha H] x [<-|Hx]; auto.
    + intros H. split; [apply H; now left | intros x Hx; apply H; now right].
Qed.

Lemma blank_false_iff (k : pystr) :
  blank k = false <-> k <> [] /\ isspace k = false.
Proof.
  unfold blank. rewrite orb_false_iff, negb_false_iff.
  destruct k; simpl; split; intros [H1 H2]; split; congruence.
Qed.

Lemma violations_nil_iff (e : json) : violations e = [] <-> valid_entry e.
Proof.
  unfold valid_entry.
  destruct e as [| | | | | |my];
    try (split; [discriminate | intros (my & E & _); discriminate]).
  unfold violations, entry_order. cbn [filter violates].
  split.
  - intros H. exists my. split; [reflexivity|].
    destruct (od_get STACK my) as [[]|] eqn:Es; try discriminate;
      destruct (od_get SUBST my) as [[]|] eqn:Eb; try discriminate.
    all: destruct (existsb _ (od_values my)) eqn:E1; try discriminate.
    all: destruct (existsb blank (od_keys my)) eqn:E2; try discriminate.
    all: pose proof (proj1 (@existsb_false_iff _ _ _) E1) as E1';
      pose proof (proj1 (@existsb_false_iff _ _ _) E2) as E2'.
    all: repeat split;
      try (intros v [= <-]; reflexivity); try discriminate;
      try (intros k Hin; apply (in_map snd) in Hin;
           now specialize (E1' _ Hin));
      try (apply blank_false_iff; now apply E2').
  - intros (my' & [= <-] & Hs & Hb & He & Hk).
    assert (E1 : existsb (fun v => match v with JObj [] => true | _ => false end)
                   (od_values my) = false).
    { apply existsb_false_iff. intros v Hv.
      unfold od_values in Hv. apply in_map_iff in Hv.
      destruct Hv as ([k v'] & <- & Hin). simpl.
      destruct v' as [| | | | | |[|]]; try reflexivity.
      now apply He in Hin. }
    assert (E2 : existsb blank (od_keys my) = false).
    { apply existsb_false_iff. intros k Hin.
      apply blank_false_iff. now apply Hk. }
    rewrite E1, E2.
    destruct (od_get STACK my) as [v|];
      [specialize (Hs v eq_refl); destruct v; try discriminate|];
      (destruct (od_get SUBST my) as [v'|];
       [specialize (Hb v' eq_refl); destruct v'; try discriminate|]);
      reflexivity.
Qed.

(** X1: [validate] accepts exactly the arrays whose elements are all
    objects with an object (if anything) under [stack] and under [subst],
    no empty object as a value and no empty or white-space key, of which at
    most one has no [stack] key. *)
Theorem validate_accepts_iff (data : json) :
  validate data = Ok tt
  <-> exists l, data = JArr l
                /\ Forall valid_entry l
                /\ List.length (filter lacks_stack l) <= 1.
Proof.
  destruct data as [| | | | |l|];
    try (split; [discriminate | intros (l & E & _); discriminate]).
  rewrite validate_ok_clean, flat_map_nil_iff. split.
  - intros [H1 H2]. exists l. split; [reflexivity|]. split; [|exact H2].
    eapply Forall_impl; [|exact H1]. intros e. apply violations_nil_iff.
  - intros (l' & [= <-] & H1 & H2). split; [|exact H2].
    eapply Forall_impl; [|exact H1]. intros e. apply violations_nil_iff.
Qed.

Lemma filter_length_perm {A : Type} (f : A -> bool) (l l' : list A) :
  Permutation l l' ->
  List.length (filter f l) = List.length (filter f l').
Proof.
  induction 1 as [|x l l' _ IH|x y l|l l' l'' _ IH1 _ IH2]; simpl.
  - reflexivity.
  - destruct (f x); simpl; congruence.
  - destruct (f x), (f y); reflexivity.
  - congruence.
Qed.

(** X2: whether a collection is accepted does not depend on the order of
    its elements (which failure is reported does). *)
Theorem validate_order_irrelevant (l l' : list json)
  (Hperm : Permutation l l') :
  validate (JArr l) = Ok tt <-> validate (JArr l') = Ok tt.
Proof.
  rewrite !validate_ok_clean, !flat_map_nil_iff.
  rewrite (filter_length_perm lacks_stack Hperm).
  split; intros [H1 H2]; (split; [|exact H2]).
  - eapply Permutation_Forall; eassumption.
  - eapply Permutation_Forall; [symmetry|]; eassumption.
Qed.

Lemma validate_order_irrelevant_witness :
  validate (JArr [JObj [(py "name", JStr (py "default"))];
                  JObj [(STACK, JObj [(py "ip", JStr (py "10.0.0.1"))])]])
  = Ok tt
  <-> validate (JArr [JObj [(STACK, JObj [(py "ip", JStr (py "10.0.0.1"))])];
                      JObj [(py "name", JStr (py "default"))]])
      = Ok tt.
Proof. apply validate_order_irrelevant. apply perm_swap. Defined.

Lemma keep_at_In {A : Type} (mask : list bool) (l : list A) (x : A) :
  In x (keep_at mask l) -> In x l.
Proof.
  revert mask. induction l as [|y l IH]; intros [|b mask]; simpl; try tauto.
  destruct b; simpl; intros H.
  - destruct H as [H|H]; [now left | right; eapply IH; eassumption].
  - right. eapply IH; eassumption.
Qed.

Lemma keep_at_filter_length {A : Type} (f : A -> bool) (mask : list bool)
  (l : list A) :
  List.length (filter f (keep_at mask l)) <= List.length (filter f l).
Proof.
  revert mask. induction l as [|y l IH]; intros [|b mask]; simpl; try lia.
  specialize (IH mask).
  destruct b; simpl; destruct (f y); simpl; lia.
Qed.

Lemma sub_collection_nil {A : Type} (l : list A) : sub_collection [] l.
Proof. induction l; now constructor. Qed.

(** Every way of dropping elements is a choice of positions. *)
Lemma sub_collection_keep_at {A : Type} (l' l : list A) :
  sub_collection l' l <-> exists mask, l' = keep_at mask l.
Proof.
  split.
  - induction 1 as [|x l' l _ [mask ->]|x l' l _ [mask ->]].
    + now exists [].
    + now exists (true :: mask).
    + now exists (false :: mask).
  - intros [mask ->]. revert mask.
    induction l as [|x l IH]; intros [|b mask]; simpl;
      try apply sub_collection_nil.
    destruct b; constructor; apply IH.
Qed.

(** X3: dropping the elements at any positions from an accepted
    collection, which is dropping any of its elements
    ([sub_collection_keep_at]), leaves an accepted collection. *)
Theorem validate_keeps_sub_collection (mask : list bool) (l : list json)
  (Hvalid : validate (JArr l) = Ok tt) :
  validate (JArr (keep_at mask l)) = Ok tt.
Proof.
  rewrite validate_ok_clean, flat_map_nil_iff in *.
  destruct Hvalid as [H1 H2]. split.
  - rewrite Forall_forall in *. intros e He. apply keep_at_In in He.
    now apply H1.
  - pose proof (keep_at_filter_length lacks_stack mask l). lia.
Qed.

Lemma validate_keeps_sub_collection_witness :
  let r1 := JObj [(STACK, JObj [(py "ip", JStr (py "10.0.0.1"))])] in
  keep_at [true; false; false] [r1; r1; JObj [(py "name", JStr (py "default"))]]
  = [r1]
  /\ validate (JArr (keep_at [true; false; false]
                       [r1; r1; JObj [(py "name", JStr (py "default"))]]))
     = Ok tt.
Proof.
  split; [reflexivity|].
  apply validate_keeps_sub_collection. reflexivity.
Defined.

(** ** The handlers and the stored document *)

Lemma run_validate_ok (data : json) (w : world) :
  validate data = Ok tt -> run_validate data w = (Ok tt, w).
Proof. unfold run_validate. now intros ->. Qed.

(** X4: the two [GET] handlers never change the store, whatever it holds
    and whether they succeed or not. *)
Theorem get_handlers_read_only (str_compound : json -> pystr) (w : world) :
  snd (get_data w) = w /\ snd (get_csv str_compound w) = w.
Proof.
  destruct w as [dj rd wr ws]. split.
  - destruct dj as [[|d]|], rd; try reflexivity.
    cbv [get_data try_except bind path_exists open_read json_load
         run_validate ret throw error data_json readable].
    destruct (validate d); reflexivity.
  - destruct dj as [[|d]|], rd; try reflexivity.
    cbv [get_csv bind open_read json_load run_validate ret throw
         data_json readable].
    destruct (validate d); [|reflexivity].
    destruct (export_table str_compound (collection_items d)); reflexivity.
Qed.

(** X5: a [POST /data] whose [Content-Type] header is [application/json]
    in lower case and whose body has at most [MEMFILE_MAX] bytes and is an
    accepted collection empties a writable file, writes the collection
    and returns nothing; a [GET /data] that follows answers that
    collection. *)
Theorem post_data_then_get_data (r : Bottle.http_request) (data : json)
  (w : world)
  (Htype : Bottle.request_content_type r = APPLICATION_JSON)
  (Hsize : (Bottle.body_length r <= Bottle.MEMFILE_MAX)%N)
  (Hbody : Bottle.body_text r = Document data)
  (Hvalid : validate data = Ok tt)
  (Hwrite : writable w = true)
  (Hread : readable w = true) :
  exists w',
    Bottle.post_data r w = (Ok NoBody, w')
    /\ data_json w' = Some (Document data)
    /\ writes w' = Dumped data :: Truncated :: writes w
    /\ get_data w' = (Ok (JsonBody data), w').
Proof.
  destruct w as [dj rd wr ws]. simpl in Hwrite, Hread. subst rd wr.
  apply N.leb_le in Hsize.
  eexists. split.
  - unfold Bottle.post_data, Bottle.body_getvalue.
    rewrite Htype, str_eqb_refl, Hsize, Hbody.
    cbv [try_except bind json_load run_validate open_write json_dump ret
         writable readable writes].
    rewrite Hvalid. reflexivity.
  - cbv [get_data try_except bind path_exists open_read json_load
         run_validate ret data_json readable writes].
    rewrite Hvalid. repeat split.
Qed.

Lemma post_data_then_get_data_witness :
  exists w',
    Bottle.post_data
      {| Bottle.content_type_header := "Application/JSON";
         Bottle.body_length := 16;
         Bottle.body_text :=
           Document (JArr [JObj [(py "name", JStr (py "r0"))]]) |}
      {| data_json := None; readable := true; writable := true;
         writes := [] |}
    = (Ok NoBody, w')
    /\ get_data w'
       = (Ok (JsonBody (JArr [JObj [(py "name", JStr (py "r0"))]])), w').
Proof.
  destruct (@post_data_then_get_data
              {| Bottle.content_type_header := "Application/JSON";
                 Bottle.body_length := 16;
                 Bottle.body_text :=
                   Document (JArr [JObj [(py "name", JStr (py "r0"))]]) |}
              (JArr [JObj [(py "name", JStr (py "r0"))]])
              {| data_json := None; readable := true; writable := true;
                 writes := [] |}
              eq_refl ltac:(simpl; unfold Bottle.MEMFILE_MAX; lia)
              eq_refl eq_refl eq_refl eq_refl)
    as (w' & H1 & _ & _ & H2).
  exists w'. split; assumption.
Defined.

(** X6: whatever the request, a [POST /data] and a [POST /csv] leave the
    store as it was or leave in the file a collection that [validate] has
    accepted: the request's document, or the one rebuilt from the uploaded
    rows. *)
Theorem post_handlers_store_validated
  (req : request) (upload : option (list (list pystr))) (w : world) :
  (snd (PostData.post_data req w) = w
   \/ exists data,
        payload req = Document data
        /\ validate data = Ok tt
        /\ data_json (snd (PostData.post_data req w)) = Some (Document data))
  /\ (snd (PostCsv.post_data upload w) = w
      \/ exists table items,
           upload = Some table
           /\ unflatten table = Ok items
           /\ validate (JArr items) = Ok tt
           /\ data_json (snd (PostCsv.post_data upload w))
              = Some (Document (JArr items))).
Proof.
  destruct w as [dj rd wr ws]. split.
  - unfold PostData.post_data.
    destruct (str_eqb (content_type req) APPLICATION_JSON); [|now left].
    destruct (payload req) as [|d] eqn:Hp; [now left|].
    cbv [try_except bind json_load run_validate open_write json_dump ret
         throw error caught writable readable writes data_json].
    destruct (validate d) as [[]|r] eqn:Hv; [|now left].
    destruct wr; [|now left].
    right. exists d. repeat split. exact Hv.
  - unfold PostCsv.post_data.
    destruct upload as [table|]; [|now left].
    cbv [bind ret]. destruct (unflatten table) as [items|e] eqn:Hu;
      [|now left].
    cbv [lift try_except bind run_validate open_write json_dump ret
         throw error caught writable readable writes data_json].
    destruct (validate (JArr items)) as [[]|r] eqn:Hv; [|now left].
    destruct wr; [|now left].
    right. exists table, items. repeat split; assumption.
Qed.

(** X7: [GET /csv] answers a table exactly when the file is there, can be
    read and holds an accepted collection; the writer's own error for a key
    outside the field names never occurs. *)
Theorem get_csv_succeeds_iff (str_compound : json -> pystr) (w : world) :
  (exists table, fst (get_csv str_compound w) = Ok (CsvBody table))
  <-> (exists d, data_json w = Some (Document d)
                 /\ readable w = true
                 /\ validate d = Ok tt).
Proof.
  unfold get_csv, bind, open_read.
  destruct (data_json w) as [t|];
    [|split; [intros [? H]; discriminate | intros (? & H & _); discriminate]].
  destruct (readable w);
    [|split; [intros [? H]; discriminate | intros (? & _ & H & _); discriminate]].
  destruct t as [|d];
    [split; [intros [? H]; discriminate | intros (? & H & _); discriminate]|].
  simpl json_load. unfold ret at 1. unfold run_validate.
  destruct (validate d) as [[]|r] eqn:Hv.
  - unfold ret at 1. rewrite export_table_cells. split.
    + intros _. exists d. auto.
    + intros _. eexists. reflexivity.
  - split; [intros [? H]; discriminate|].
    intros (d' & [= <-] & _ & H). congruence.
Qed.

(** X8: when [GET /csv] fails, what leaves the handler is always the bare
    exception of [open], [json.load] or [validate], never the 500 response
    that [error] builds. *)
Theorem get_csv_failure_is_uncaught (str_compound : json -> pystr)
  (w : world) (t : thrown)
  (Hfail : fst (get_csv str_compound w) = Raise t) :
  t = Exception IOError \/ t = Exception JSONDecodeError
  \/ exists r, t = Exception (ValueError r).
Proof.
  revert Hfail. unfold get_csv, bind, open_read.
  destruct (data_json w) as [d|]; [|intros [= <-]; now left].
  destruct (readable w); [|intros [= <-]; now left].
  destruct d as [|d]; [intros [= <-]; right; now left|].
  simpl json_load. unfold ret at 1. unfold run_validate.
  destruct (validate d) as [[]|r].
  - unfold ret at 1. rewrite export_table_cells. discriminate.
  - intros [= <-]. right. right. now exists r.
Qed.

Lemma get_csv_failure_is_uncaught_witness :
  Exception (ValueError TooManyDefaults) = Exception IOError
  \/ Exception (ValueError TooManyDefaults) = Exception JSONDecodeError
  \/ exists r, Exception (ValueError TooManyDefaults)
               = Exception (ValueError r).
Proof.
  apply (@get_csv_failure_is_uncaught no_repr
           {| data_json := Some (Document (JArr [JObj []; JObj []]));
              readable := true; writable := true; writes := [] |}).
  reflexivity.
Defined.

(** ** The shape of the exported table *)

(** X9: the export never fails; its header has no repeated name and holds
    exactly the column names of the flattened entries; there is one row
    per entry and every row has one field per column. *)
Theorem export_table_shape (str_compound : json -> pystr) (data : list json) :
  exists cols rows,
    export_table str_compound data = Some (cols :: rows)
    /\ NoDup cols
    /\ (forall c, In c cols
                  <-> exists e, In e data
                                /\ In c (od_keys (flatten_entry (entry_fields e))))
    /\ List.length rows = List.length data
    /\ Forall (fun row => List.length row = List.length cols) rows.
Proof.
  eexists. eexists. split; [apply export_table_cells|].
  split; [apply columns_NoDup|]. split; [|split].
  - intros c. rewrite columns_In. unfold flat_data. split.
    + intros (row & Hrow & Hc). apply in_map_iff in Hrow.
      destruct Hrow as (e & <- & He). now exists e.
    + intros (e & He & Hc). eexists. split; [|exact Hc].
      apply in_map_iff. now exists e.
  - unfold flat_data. now rewrite !length_map.
  - apply Forall_forall. intros row Hrow. apply in_map_iff in Hrow.
    destruct Hrow as (flat & <- & _). apply length_map.
Qed.

(** ** What the import builds *)

Lemma od_set_Forall {V : Type} (P : V -> Prop) (k : pystr) (v : V)
  (d : odict V) :
  Forall (fun p => P (snd p)) d -> P v ->
  Forall (fun p => P (snd p)) (od_set k v d).
Proof.
  intros Hd Hv. induction d as [|[k0 v0] d IH]; simpl.
  - now constructor.
  - inversion Hd as [|? ? H0 Hd']; subst.
    destruct (str_eqb k k0); constructor; auto.
Qed.

Lemma od_set_not_nil {V : Type} (k : pystr) (v : V) (d : odict V) :
  od_set k v d <> [].
Proof.
  destruct d as [|[k0 v0] d]; simpl; [discriminate|].
  destruct (str_eqb k k0); discriminate.
Qed.

Lemma od_get_Forall {V : Type} (P : V -> Prop) (k : pystr) (v : V)
  (d : odict V) :
  Forall (fun p => P (snd p)) d -> od_get k d = Some v -> P v.
Proof.
  intros Hd Hg. apply od_get_Some_In in Hg.
  rewrite Forall_forall in Hd. apply (Hd _ Hg).
Qed.

Lemma str_truthy_nonempty (s : pystr) : str_truthy s = true <-> s <> [].
Proof. destruct s; simpl; split; congruence. Qed.

Lemma unflatten_key_imported (cubic cubic' : odict json) (p : pystr * pystr) :
  imported_dict cubic ->
  unflatten_key cubic p = Ok cubic' ->
  imported_dict cubic'.
Proof.
  intros [ND F]. unfold unflatten_key.
  destruct p as [k v]. cbn [fst snd].
  destruct (str_truthy v) eqn:Hv; cbn [andb].
  - apply str_truthy_nonempty in Hv.
    assert (Hfield : imported_field (JStr v)) by (now exists v).
    destruct (Nat.eqb (List.length (split SLASH k)) 2).
    + destruct (od_get (nth 0 (split SLASH k) []) cubic) as [x|] eqn:G.
      * destruct x as [| | | | | |o]; try discriminate.
        intros [= <-]. split; [now apply od_set_NoDup|].
        apply od_set_Forall; [exact F|].
        pose proof (@od_get_Forall _ imported_value _ _ _ F G)
          as [H|[(s & H & _)|(o' & H & Ho)]];
          try discriminate.
        injection H as <-. destruct Ho as (_ & NDo & Fo).
        right. right. eexists. split; [reflexivity|].
        split; [apply od_set_not_nil|].
        split; [now apply od_set_NoDup | now apply od_set_Forall].
      * intros [= <-]. split; [now apply od_set_NoDup|].
        apply od_set_Forall; [exact F|].
        right. right. eexists. split; [reflexivity|].
        split; [discriminate|]. split.
        -- simpl. constructor; [intros [] | constructor].
        -- constructor; [exact Hfield | constructor].
    + str_cases v TRUE_TEXT.
      * intros [= <-]. split; [now apply od_set_NoDup|].
        apply od_set_Forall; [exact F | now left].
      * intros [= <-]. split; [now apply od_set_NoDup|].
        apply od_set_Forall; [exact F|]. right. left. now exists v.
  - destruct v; [|discriminate]. simpl. now intros [= <-].
Qed.

Lemma unflatten_keys_imported (ps : list (pystr * pystr))
  (cubic cubic' : odict json) :
  imported_dict cubic ->
  unflatten_keys cubic ps = Ok cubic' ->
  imported_dict cubic'.
Proof.
  revert cubic. induction ps as [|p ps IH]; intros cubic Hc; simpl.
  - now intros [= <-].
  - destruct (unflatten_key cubic p) as [c|e] eqn:E; [|discriminate].
    apply IH. eapply unflatten_key_imported; eassumption.
Qed.

Lemma unflatten_rows_imported (headers : list pystr)
  (rows : list (list pystr)) (back : list json) :
  unflatten_rows headers rows = Ok back -> Forall imported_entry back.
Proof.
  revert back. induction rows as [|row rows IH]; intros back; simpl.
  - intros [= <-]. constructor.
  - destruct (unflatten_row headers row) as [cubic|] eqn:Er; [|discriminate].
    destruct (unflatten_rows headers rows) as [data|]; [|discriminate].
    intros [= <-]. constructor; [|now apply IH].
    exists cubic. split; [reflexivity|].
    unfold unflatten_row in Er.
    eapply unflatten_keys_imported; [|exact Er].
    split; constructor.
Qed.

(** X10: every entry the import builds has distinct keys, and each of its
    values is [true], a non-empty string other than [True], or a non-empty
    object with distinct keys whose fields are non-empty strings; there is
    no [false], no number, no null, no empty string and no empty object. *)
Theorem unflatten_builds_imported_entries
  (table : list (list pystr)) (back : list json)
  (Hrun : unflatten table = Ok back) :
  Forall imported_entry back.
Proof.
  destruct table as [|headers rows]; [discriminate|].
  now apply unflatten_rows_imported in Hrun.
Qed.

Lemma unflatten_builds_imported_entries_witness :
  Forall imported_entry
    [JObj [(STACK, JObj [(py "ip", JStr (py "1.2.3.4"))]);
           (py "enabled", JBool true)]].
Proof.
  apply (@unflatten_builds_imported_entries
           [[py "stack/ip"; py "enabled"]; [py "1.2.3.4"; py "True"]]).
  reflexivity.
Defined.

Lemma imported_entry_violations (e : json) (r : reason) :
  imported_entry e -> In r (violations e) ->
  r = InvalidStackShape \/ r = InvalidSubstShape \/ r = EmptyKeyNotAllowed.
Proof.
  intros (my & -> & _ & F) Hin.
  unfold violations in Hin. apply filter_In in Hin. destruct Hin as [Hr Hv].
  destruct r; auto; simpl in Hv; try discriminate.
  exfalso. apply existsb_exists in Hv. destruct Hv as (v & Hin & Hv).
  unfold od_values in Hin. apply in_map_iff in Hin.
  destruct Hin as (p & <- & Hp).
  rewrite Forall_forall in F. specialize (F _ Hp).
  destruct (snd p) as [| | | | | |[|]]; try discriminate.
  destruct F as [H|[(s & H & _)|(o & H & Ho & _)]]; try discriminate.
  injection H as <-. now apply Ho.
Qed.

(** X11: on imported rows [validate] can only fail for the shape of
    [stack], the shape of [subst], an empty key or too many entries without
    [stack]; it never reports an element that is not an object or an empty
    object. *)
Theorem imported_data_failures
  (table : list (list pystr)) (back : list json) (r : reason)
  (Hrun : unflatten table = Ok back)
  (Hfail : validate (JArr back) = Raise r) :
  r = InvalidStackShape \/ r = InvalidSubstShape
  \/ r = EmptyKeyNotAllowed \/ r = TooManyDefaults.
Proof.
  destruct table as [|headers rows]; [discriminate|].
  apply unflatten_rows_imported in Hrun.
  rewrite validate_by_violations in Hfail.
  destruct (flat_map violations back) as [|r0 rs] eqn:E.
  - destruct (Nat.ltb 1 _); [|discriminate].
    injection Hfail as <-. auto.
  - injection Hfail as <-.
    assert (Hin : In r0 (flat_map violations back)) by (rewrite E; now left).
    apply in_flat_map in Hin. destruct Hin as (e & He & Hr).
    rewrite Forall_forall in Hrun.
    destruct (@imported_entry_violations e r0 (Hrun e He) Hr) as [H|[H|H]]; auto.
Qed.

Lemma imported_data_failures_witness :
  InvalidStackShape = InvalidStackShape \/ InvalidStackShape = InvalidSubstShape
  \/ InvalidStackShape = EmptyKeyNotAllowed
  \/ InvalidStackShape = TooManyDefaults.
Proof.
  apply (@imported_data_failures [[py "stack"]; [py "r1"]]
           [JObj [(STACK, JStr (py "r1"))]]); reflexivity.
Defined.

(** X12: the import builds one entry per data row, in the order of the
    rows, and each entry is made from the header and its own row alone; an
    upload with a header and no data row gives the empty collection. *)
Theorem unflatten_row_by_row
  (headers : list pystr) (rows : list (list pystr)) (back : list json)
  (Hrun : unflatten (headers :: rows) = Ok back) :
  List.length back = List.length rows
  /\ forall i row, nth_error rows i = Some row ->
       exists cubic, unflatten_row headers row = Ok cubic
                     /\ nth_error back i = Some (JObj cubic).
Proof.
  simpl in Hrun. revert back Hrun.
  induction rows as [|row0 rows IH]; intros back; simpl.
  - intros [= <-]. split; [reflexivity|]. intros [|i] row; discriminate.
  - destruct (unflatten_row headers row0) as [cubic|] eqn:Er; [|discriminate].
    destruct (unflatten_rows headers rows) as [data|]; [|discriminate].
    intros [= <-]. destruct (IH data eq_refl) as [Hlen Hnth].
    split; [simpl; congruence|].
    intros [|i] row; simpl.
    + intros [= <-]. now exists cubic.
    + apply Hnth.
Qed.

Lemma unflatten_row_by_row_witness :
  List.length [JObj [(STACK, JObj [(py "ip", JStr (py "1.2.3.4"))])];
               JObj [(py "name", JStr (py "r2"))]]
  = List.length [[py "1.2.3.4"]; [[]; py "r2"]]
  /\ forall i row, nth_error [[py "1.2.3.4"]; [[]; py "r2"]] i = Some row ->
       exists cubic, unflatten_row [py "stack/ip"; py "name"] row = Ok cubic
                     /\ nth_error
                          [JObj [(STACK, JObj [(py "ip", JStr (py "1.2.3.4"))])];
                           JObj [(py "name", JStr (py "r2"))]] i
                        = Some (JObj cubic).
Proof.
  apply (@unflatten_row_by_row [py "stack/ip"; py "name"]
           [[py "1.2.3.4"]; [[]; py "r2"]]).
  reflexivity.
Defined.

Lemma combine_keys_NoDup {V : Type} (headers : list pystr) (row : list V) :
  NoDup headers -> NoDup (od_keys (combine headers row)).
Proof.
  revert row. induction headers as [|h hs IH]; intros row ND; simpl.
  - constructor.
  - destruct row as [|c row]; simpl; [constructor|].
    inversion ND as [|? ? Hn ND']; subst. constructor; [|now apply IH].
    intros Hin. apply Hn. unfold od_keys in Hin. apply in_map_iff in Hin.
    destruct Hin as ([k v] & <- & Hin). simpl.
    now apply in_combine_l in Hin.
Qed.

Lemma unflatten_row_pairs (headers row : list pystr) :
  NoDup headers ->
  unflatten_row headers row
  = unflatten_keys []
      (filter (fun p => str_truthy (snd p)) (combine headers row)).
Proof.
  intros ND. unfold unflatten_row.
  rewrite od_of_pairs_NoDup by (now apply combine_keys_NoDup).
  apply unflatten_keys_skip_blank.
Qed.

Lemma filled_fit_row (headers row : list pystr) :
  filter (fun p => str_truthy (snd p))
         (combine headers (fit_row (List.length headers) row))
  = filter (fun p : pystr * pystr => str_truthy (snd p)) (combine headers row).
Proof.
  revert row. induction headers as [|h hs IH]; intros row; [reflexivity|].
  destruct row as [|c row]; simpl.
  - rewrite IH. now destruct hs.
  - rewrite IH. reflexivity.
Qed.

(** X13: with distinct header names, a row is read as if it were cut, or
    padded with empty cells, to the length of the header: cells beyond the
    header are ignored and missing cells count as empty. *)
Theorem unflatten_row_fits_header (headers row : list pystr)
  (Hnames : NoDup headers) :
  unflatten_row headers row
  = unflatten_row headers (fit_row (List.length headers) row).
Proof.
  rewrite !unflatten_row_pairs by exact Hnames.
  now rewrite filled_fit_row.
Qed.

Lemma unflatten_row_fits_header_witness :
  unflatten_row [py "stack/ip"; py "name"]
                [py "1.2.3.4"; py "r1"; py "extra"]
  = unflatten_row [py "stack/ip"; py "name"]
      (fit_row 2 [py "1.2.3.4"; py "r1"; py "extra"])
  /\ unflatten_row [py "stack/ip"; py "name"] [py "1.2.3.4"]
     = unflatten_row [py "stack/ip"; py "name"] (fit_row 2 [py "1.2.3.4"]).
Proof.
  split; apply unflatten_row_fits_header;
    repeat constructor; simpl; intuition discriminate.
Defined.

(** ** A group name that is also a column *)

Lemma unflatten_key_raise_kind (cubic : odict json) (p : pystr * pystr)
  (e : exn) :
  unflatten_key cubic p = Raise e -> e = AttributeError.
Proof.
  unfold unflatten_key.
  destruct (str_truthy (snd p) && Nat.eqb (List.length (split SLASH (fst p))) 2).
  - destruct (od_get _ cubic) as [[]|]; try discriminate; now intros [= <-].
  - destruct (str_eqb (snd p) TRUE_TEXT); [discriminate|].
    destruct (str_truthy (snd p)); discriminate.
Qed.

Lemma unflatten_keys_raise_kind (ps : list (pystr * pystr))
  (cubic : odict json) (e : exn) :
  unflatten_keys cubic ps = Raise e -> e = AttributeError.
Proof.
  revert cubic. induction ps as [|p ps IH]; intros cubic; simpl;
    [discriminate|].
  destruct (unflatten_key cubic p) as [c|e'] eqn:E.
  - apply IH.
  - intros [= <-]. now apply unflatten_key_raise_kind in E.
Qed.

(** A step that succeeds leaves what is under another key. *)
Lemma unflatten_key_keeps_scalar (cubic cubic' : odict json)
  (k v g : pystr) (x : json) :
  k <> g -> od_get g cubic = Some x -> is_odict x = false ->
  unflatten_key cubic (k, v) = Ok cubic' ->
  od_get g cubic' = Some x.
Proof.
  intros Hk Hg Hx. unfold unflatten_key. cbn [fst snd].
  destruct (str_truthy v && Nat.eqb (List.length (split SLASH k)) 2).
  - set (g0 := nth 0 (split SLASH k) []).
    str_cases g0 g.
    + rewrite E, Hg. destruct x; try discriminate.
    + destruct (od_get g0 cubic) as [[]|]; try discriminate;
        intros [= <-]; rewrite od_get_set_other by congruence; exact Hg.
  - destruct (str_eqb v TRUE_TEXT); [|destruct (str_truthy v)];
      intros [= <-]; rewrite ?od_get_set_other by congruence; exact Hg.
Qed.

Lemma unflatten_keys_group_after_scalar (ps : list (pystr * pystr))
  (cubic : odict json) (g f v : pystr) (x : json) :
  no_slash g = true -> no_slash f = true -> v <> [] ->
  od_get g cubic = Some x -> is_odict x = false ->
  ~ In g (od_keys ps) ->
  In (g ++ SLASH :: f, v) ps ->
  unflatten_keys cubic ps = Raise AttributeError.
Proof.
  intros Hg Hf Hv. revert cubic.
  induction ps as [|[k s] ps IH]; intros cubic Hx Hs Hn Hin; [destruct Hin|].
  simpl. destruct (unflatten_key cubic (k, s)) as [c|e] eqn:E.
  - destruct Hin as [[= -> ->]|Hin].
    + exfalso. unfold unflatten_key in E. cbn [fst snd] in E.
      rewrite split_group_field in E by assumption.
      apply str_truthy_nonempty in Hv. rewrite Hv in E.
      cbn [List.length Nat.eqb andb nth] in E. rewrite Hx in E.
      destruct x; discriminate.
    + apply IH; auto.
      * eapply unflatten_key_keeps_scalar; [| exact Hx | exact Hs | exact E].
        intros ->. apply Hn. now left.
      * intros H. apply Hn. now right.
  - now apply unflatten_key_raise_kind in E as ->.
Qed.

Lemma unflatten_rows_raise (headers : list pystr) (rows : list (list pystr))
  (row : list pystr) :
  In row rows ->
  unflatten_row headers row = Raise AttributeError ->
  unflatten_rows headers rows = Raise AttributeError.
Proof.
  intros Hin Hrow. induction rows as [|r rows IH]; [destruct Hin|]. simpl.
  destruct (unflatten_row headers r) as [c|e] eqn:E.
  - destruct Hin as [->|Hin]; [congruence|]. now rewrite (IH Hin).
  - unfold unflatten_row in E. now apply unflatten_keys_raise_kind in E as ->.
Qed.

(** X14: when some row has a non-empty cell under a name [g] without
    separator and, further right, a non-empty cell under [g/f], the import
    calls [update] on a string (or on [true]): the [AttributeError] leaves
    the handler uncaught and the store is not touched. *)
Theorem import_group_after_scalar
  (headers : list pystr) (rows : list (list pystr)) (row : list pystr)
  (pre post : list (pystr * pystr)) (g f x y : pystr) (w : world)
  (Hnames : NoDup headers)
  (Hrow : In row rows)
  (Hcells : combine headers row = pre ++ (g, x) :: post)
  (Hlater : In (g ++ SLASH :: f, y) post)
  (Hg : no_slash g = true) (Hf : no_slash f = true)
  (Hx : x <> []) (Hy : y <> []) :
  PostCsv.post_data (Some (headers :: rows)) w
  = (Raise (Exception AttributeError), w).
Proof.
  assert (Hr : unflatten_row headers row = Raise AttributeError).
  { unfold unflatten_row.
    pose proof (combine_keys_NoDup row Hnames) as ND.
    rewrite od_of_pairs_NoDup by exact ND.
    rewrite Hcells in *. rewrite unflatten_keys_app.
    destruct (unflatten_keys [] pre) as [c|e] eqn:Epre;
      [|now apply unflatten_keys_raise_kind in Epre as ->].
    cbn [unflatten_keys].
    assert (Hstep : unflatten_key c (g, x)
                    = Ok (od_set g (scalar_of_text x) c)).
    { unfold unflatten_key. cbn [fst snd].
      rewrite (split_no_slash _ Hg). cbn [List.length Nat.eqb].
      rewrite andb_false_r. apply str_truthy_nonempty in Hx.
      unfold scalar_of_text. rewrite Hx.
      destruct (str_eqb x TRUE_TEXT); reflexivity. }
    rewrite Hstep.
    apply (@unflatten_keys_group_after_scalar post _ g f y
             (scalar_of_text x)); auto.
    - apply od_get_set_same.
    - unfold scalar_of_text. now destruct (str_eqb x TRUE_TEXT).
    - unfold od_keys in ND. rewrite map_app in ND. simpl in ND.
      apply NoDup_remove_2 in ND. intros Hin. apply ND.
      apply in_or_app. now right. }
  unfold PostCsv.post_data. cbv [bind ret]. simpl unflatten.
  now rewrite (@unflatten_rows_raise headers rows row Hrow Hr).
Qed.

Lemma import_group_after_scalar_witness :
  let w := {| data_json := Some (Document (JArr [JObj []]));
              readable := true; writable := true; writes := [] |} in
  PostCsv.post_data (Some [[py "stack"; py "stack/ip"];
                           [py "core"; py "10.0.0.1"]]) w
  = (Raise (Exception AttributeError), w).
Proof.
  intros w.
  apply (@import_group_after_scalar
           [py "stack"; py "stack/ip"] [[py "core"; py "10.0.0.1"]]
           [py "core"; py "10.0.0.1"]
           [] [(py "stack/ip", py "10.0.0.1")]
           (py "stack") (py "ip") (py "core") (py "10.0.0.1") w);
    try reflexivity; try discriminate.
  - repeat constructor; simpl; intuition discriminate.
  - now left.
  - now left.
Defined.

(** ** Import followed by export *)

Lemma csv_field_cell_value (str_compound : json -> pystr) (c s : pystr) :
  csv_field str_compound (cell_value c s) = s.
Proof.
  unfold cell_value, scalar_of_text.
  destruct (no_slash c); [|reflexivity].
  str_cases s TRUE_TEXT; [now subst | reflexivity].
Qed.

Lemma count_one_form (c : pystr) :
  count SLASH c = 1 ->
  c = before SLASH c ++ SLASH :: after SLASH c
  /\ no_slash (before SLASH c) = true /\ no_slash (after SLASH c) = true.
Proof. intros H. apply split_two_inv. now apply split_count_one. Qed.

Lemma keys_filter_NoDup {V : Type} (q : pystr * V -> bool) (d : odict V) :
  NoDup (od_keys d) -> NoDup (od_keys (filter q d)).
Proof.
  induction d as [|p d IH]; intros ND; simpl; [constructor|].
  inversion ND as [|? ? Hn ND']; subst.
  destruct (q p); simpl; [|now apply IH].
  constructor; [|now apply IH].
  intros Hin. apply Hn. unfold od_keys in *. apply in_map_iff in Hin.
  destruct Hin as (p' & E & Hp). apply filter_In in Hp.
  apply in_map_iff. exists p'. tauto.
Qed.

Lemma od_get_filter_NoDup {V : Type} (q : pystr * V -> bool) (d : odict V)
  (k : pystr) :
  NoDup (od_keys d) ->
  od_get k (filter q d)
  = match od_get k d with
    | Some v => if q (k, v) then Some v else None
    | None => None
    end.
Proof.
  induction d as [|[k0 v0] d IH]; intros ND; simpl; [reflexivity|].
  inversion ND as [|? ? Hn ND']; subst.
  destruct (q (k0, v0)) eqn:Hq; simpl; str_cases k k0.
  - subst. now rewrite Hq.
  - now apply IH.
  - subst. rewrite Hq, (IH ND').
    apply od_get_None_keys in Hn. now rewrite Hn.
  - now apply IH.
Qed.

Section Import_export_row.
Variable str_compound : json -> pystr.
Variable headers row : list pystr.
Hypothesis Hplain : plain_header headers = true.

Let P := filter (fun p : pystr * pystr => str_truthy (snd p))
                (combine headers row).

Lemma plain_header_NoDup : NoDup headers.
Proof.
  pose proof Hplain as Hp.
  unfold plain_header in Hp. rewrite !andb_true_iff in Hp.
  now apply unique_NoDup.
Qed.

Lemma row_pairs_get (c : pystr) : od_get_default c P [] = cell_at headers row c.
Proof.
  unfold P, cell_at, od_get_default.
  rewrite od_get_filter_NoDup
    by (apply combine_keys_NoDup, plain_header_NoDup).
  destruct (od_get c (combine headers row)) as [s|]; [|reflexivity].
  simpl. now destruct s.
Qed.

Lemma row_pairs_regular : regular P.
Proof.
  pose proof Hplain as Hp.
  unfold plain_header in Hp. rewrite !andb_true_iff in Hp.
  destruct Hp as [[Hu Hc] Hg].
  rewrite forallb_forall in Hc, Hg.
  split.
  - apply keys_filter_NoDup, combine_keys_NoDup, plain_header_NoDup.
  - intros k s Hin. unfold P in Hin. apply filter_In in Hin.
    destruct Hin as [Hin Hs]. split; [exact Hs|].
    apply in_combine_l in Hin.
    specialize (Hc k Hin). specialize (Hg k Hin).
    apply Nat.leb_le in Hc.
    destruct (count SLASH k) as [|[|n]] eqn:Ec; [| |lia].
    + left. now apply count_zero_no_slash.
    + right. destruct (count_one_form _ Ec) as (E & Hb & Ha).
      exists (before SLASH k), (after SLASH k).
      repeat split; auto.
      assert (Hns : no_slash k = false).
      { destruct (no_slash k) eqn:N; [|reflexivity].
        apply count_zero_no_slash in N. congruence. }
      rewrite Hns in Hg. simpl in Hg. apply negb_true_iff in Hg.
      intros Hk. unfold od_keys, P in Hk. apply in_map_iff in Hk.
      destruct Hk as ([k' s'] & E' & Hk). simpl in E'. subst k'.
      apply filter_In in Hk. destruct Hk as [Hk _].
      apply in_combine_l in Hk.
      now rewrite (existsb_str_In _ _ Hk) in Hg.
Qed.

Lemma fields_In_form (g f : pystr) (x : json) (ps : list (pystr * pystr)) :
  In (f, x) (fields g ps) -> no_slash f = true /\ scalar x = true.
Proof.
  unfold fields. intros Hin. apply in_flat_map in Hin.
  destruct Hin as ([k s] & _ & Hin). simpl in Hin.
  destruct (split SLASH k) as [|a [|b [|c t]]] eqn:Es; try contradiction.
  destruct (str_eqb a g); [|contradiction].
  destruct Hin as [[= <- <-]|[]].
  apply split_two_inv in Es. now destruct Es as (_ & _ & Hb).
Qed.

Section With_cubic.
Variable cubic : odict json.
Hypothesis Hnodup : NoDup (od_keys cubic).
Hypothesis Htop : forall k, od_get k cubic = top k P.

Lemma imported_entry_ok : entry_ok cubic.
Proof.
  split; [exact Hnodup|]. apply Forall_forall. intros [k v] Hin. simpl.
  pose proof (@od_get_In_NoDup _ k v cubic Hnodup Hin) as Hg.
  rewrite Htop in Hg. unfold top in Hg.
  destruct (no_slash k); [|discriminate]. split; [reflexivity|].
  destruct (od_get k P) as [s|].
  - injection Hg as <-. unfold scalar_of_text.
    now destruct (str_eqb s TRUE_TEXT).
  - destruct (fields k P) as [|q fs] eqn:Ef; [discriminate|].
    injection Hg as <-. rewrite <- Ef. split.
    + apply fields_NoDup. apply row_pairs_regular.
    + apply Forall_forall. intros [f x] Hf. simpl.
      now apply (@fields_In_form k f x P).
Qed.

Lemma imported_flat_get (c : pystr) :
  od_get c (flat_list cubic) = option_map (cell_value c) (od_get c P).
Proof.
  destruct row_pairs_regular as [NDp Hform].
  assert (Hkey : forall s, od_get c P = Some s ->
                 no_slash c = true
                 \/ exists g f, c = g ++ SLASH :: f /\ no_slash g = true
                                /\ no_slash f = true /\ ~ In g (od_keys P)).
  { intros s Hs. apply od_get_Some_In in Hs. apply (Hform c s Hs). }
  destruct (count SLASH c) as [|[|n]] eqn:Ec.
  - assert (Hc : no_slash c = true) by (now apply count_zero_no_slash).
    rewrite (@flat_list_get_scalar cubic c imported_entry_ok Hc).
    rewrite Htop. unfold top, cell_value. rewrite Hc.
    destruct (od_get c P) as [s|]; simpl.
    + unfold scalar_of_text. now destruct (str_eqb s TRUE_TEXT).
    + now destruct (fields c P).
  - destruct (count_one_form _ Ec) as (E & Hb & Ha).
    remember (before SLASH c) as g eqn:Dg.
    remember (after SLASH c) as f eqn:Df.
    assert (Hns : no_slash c = false)
      by (rewrite E; apply no_slash_group_field).
    assert (Hrhs : option_map (cell_value c) (od_get c P)
                   = option_map JStr (od_get c P)).
    { unfold cell_value. rewrite Hns. reflexivity. }
    rewrite Hrhs.
    replace (od_get c (flat_list cubic))
      with (od_get (g ++ SLASH :: f) (flat_list cubic)) by (now rewrite <- E).
    rewrite (@flat_list_get_nested cubic g f imported_entry_ok Hb).
    rewrite Htop. unfold top. rewrite Hb.
    destruct (od_get g P) as [s|] eqn:Eg.
    + replace (od_get c P) with (@None pystr).
      * unfold scalar_of_text. now destruct (str_eqb s TRUE_TEXT).
      * symmetry. destruct (od_get c P) as [s'|] eqn:Es; [|reflexivity].
        exfalso. destruct (Hkey s' eq_refl) as [H|(g' & f' & E' & Hg' & _ & Hn)];
          [congruence|].
        rewrite E in E'.
        destruct (@group_field_inj g g' f f' Hb Hg' E') as [<- _].
        apply Hn. now apply od_get_Some_keys in Eg.
    + pose proof (@fields_get g f P Hb) as Hf. rewrite Ha in Hf.
      rewrite <- E in Hf. rewrite <- Hf.
      now destruct (fields g P).
  - assert (H1 : od_get c (flat_list cubic) = None).
    { apply od_get_None_keys. intros Hin.
      destruct (@flat_list_key_form cubic c imported_entry_ok Hin)
        as [H|(g & f & -> & Hg & Hf)].
      - apply count_zero_no_slash in H. congruence.
      - rewrite count_group_field in Ec by assumption. congruence. }
    rewrite H1. destruct (od_get c P) as [s|] eqn:Es; [|reflexivity].
    exfalso. destruct (Hkey s eq_refl) as [H|(g & f & -> & Hg & Hf & _)].
    + apply count_zero_no_slash in H. congruence.
    + rewrite count_group_field in Ec by assumption. congruence.
Qed.

Lemma imported_cell (c : pystr) :
  cell str_compound (flatten_entry cubic) c = cell_at headers row c.
Proof.
  rewrite (@flatten_entry_flat_list cubic imported_entry_ok).
  rewrite <- row_pairs_get. unfold cell, od_get_default.
  rewrite imported_flat_get.
  destruct (od_get c P) as [s|]; simpl; [apply csv_field_cell_value|].
  reflexivity.
Qed.

Lemma imported_columns (c : pystr) :
  In c (od_keys (flatten_entry cubic)) <-> cell_at headers row c <> [].
Proof.
  rewrite (@flatten_entry_flat_list cubic imported_entry_ok).
  rewrite <- row_pairs_get. unfold od_get_default. split.
  - intros Hin. apply od_get_keys_Some in Hin. destruct Hin as [v Hv].
    rewrite imported_flat_get in Hv.
    destruct (od_get c P) as [s|] eqn:Es; [|discriminate].
    apply od_get_Some_In in Es. unfold P in Es. apply filter_In in Es.
    destruct Es as [_ Hs]. simpl in Hs. now apply str_truthy_nonempty.
  - intros Hne. destruct (od_get c P) as [s|] eqn:Es; [|congruence].
    pose proof (imported_flat_get c) as Hf. rewrite Es in Hf. simpl in Hf.
    now apply od_get_Some_keys in Hf.
Qed.

End With_cubic.

Lemma import_export_row :
  exists cubic,
    unflatten_row headers row = Ok cubic
    /\ (forall c, cell str_compound (flatten_entry cubic) c
                  = cell_at headers row c)
    /\ (forall c, In c (od_keys (flatten_entry cubic))
                  <-> cell_at headers row c <> []).
Proof.
  rewrite (unflatten_row_pairs row plain_header_NoDup). fold P.
  destruct (@unflatten_keys_regular P row_pairs_regular)
    as (cubic & Hrun & ND & Hget).
  exists cubic. split; [exact Hrun|]. split.
  - intros c. now apply imported_cell.
  - intros c. now apply imported_columns.
Qed.

End Import_export_row.

Lemma import_export_rows (str_compound : json -> pystr)
  (headers : list pystr) (rows : list (list pystr)) :
  plain_header headers = true ->
  exists back,
    unflatten_rows headers rows = Ok back
    /\ (forall cols,
          map (fun flat => map (cell str_compound flat) cols) (flat_data back)
          = map (fun row => map (cell_at headers row) cols) rows)
    /\ (forall c, (exists e, In e back
                             /\ In c (od_keys (flatten_entry (entry_fields e))))
                  <-> exists row, In row rows /\ cell_at headers row c <> []).
Proof.
  intros Hplain. induction rows as [|row rows IH].
  - exists []. split; [reflexivity|]. split; [reflexivity|].
    intros c. split; intros (x & [] & _).
  - destruct IH as (back & Hrun & Hcells & Hcols).
    destruct (@import_export_row str_compound headers row Hplain)
      as (cubic & Hrow & Hc & Hk).
    exists (JObj cubic :: back). split; [|split].
    + simpl. now rewrite Hrow, Hrun.
    + intros cols. unfold flat_data in *. cbn [map entry_fields].
      rewrite Hcells. f_equal. apply map_ext. intros c. apply Hc.
    + intros c. split.
      * intros (e & [<-|He] & Hin).
        -- exists row. split; [now left|]. now apply Hk.
        -- destruct (proj1 (Hcols c)) as (r & Hr & Hne);
             [now exists e|]. exists r. split; [now right | exact Hne].
      * intros (r & [<-|Hr] & Hne).
        -- exists (JObj cubic). split; [now left|]. now apply Hk.
        -- destruct (proj2 (Hcols c)) as (e & He & Hin);
             [now exists r|]. exists e. split; [now right | exact Hin].
Qed.

(** X15: on a table whose header has distinct names with at most one
    separator each, none of them the group of another, the reconstruction
    loop of the import raises nothing, and the export's flattening and
    writing of the collection it builds gives the same cells back under
    the same names: the columns are those with a non-empty cell in some
    row (their order may have changed), and every row shows its original
    cell under each of them.  Whether [validate] then accepts the
    collection, so that the import stores it, is another matter: the
    statement is about the two loops. *)
Theorem import_then_export (str_compound : json -> pystr)
  (headers : list pystr) (rows : list (list pystr))
  (Hplain : plain_header headers = true) :
  exists back cols,
    unflatten (headers :: rows) = Ok back
    /\ export_table str_compound back
       = Some (cols :: map (fun row => map (cell_at headers row) cols) rows)
    /\ NoDup cols
    /\ forall c, In c cols
                 <-> exists row, In row rows /\ cell_at headers row c <> [].
Proof.
  destruct (@import_export_rows str_compound headers rows Hplain)
    as (back & Hrun & Hcells & Hcols).
  exists back, (columns (flat_data back)). split; [exact Hrun|].
  split; [|split].
  - rewrite export_table_cells. now rewrite Hcells.
  - apply columns_NoDup.
  - intros c. rewrite <- Hcols, columns_In. unfold flat_data. split.
    + intros (flat & Hf & Hc). apply in_map_iff in Hf.
      destruct Hf as (e & <- & He). now exists e.
    + intros (e & He & Hc). eexists. split; [|exact Hc].
      apply in_map_iff. now exists e.
Qed.

Lemma import_then_export_witness :
  exists back cols,
    unflatten import_sample = Ok back
    /\ export_table no_repr back
       = Some (cols :: map (fun row => map (cell_at (hd [] import_sample) row)
                                            cols)
                           (tl import_sample))
    /\ NoDup cols
    /\ forall c, In c cols
                 <-> exists row, In row (tl import_sample)
                                 /\ cell_at (hd [] import_sample) row c <> [].
Proof.
  apply (@import_then_export no_repr (hd [] import_sample) (tl import_sample)).
  reflexivity.
Defined.

Example import_sample_exported :
  match unflatten import_sample with
  | Ok back => export_table no_repr back
  | Raise _ => None
  end
  = Some [[py "name"; py "stack/ip"; py "stack/mask"];
          [py "r1"; py "10.0.0.1"; py "24"];
          [py "True"; []; py "16"]].
Proof. reflexivity. Qed.

(** ** Removing a file *)

Lemma startswith_spec (s prefix : pystr) :
  startswith s prefix = true <-> exists b, s = prefix ++ b.
Proof.
  revert s. induction prefix as [|p ps IH]; intros s; simpl.
  - split; [intros _; now exists s | reflexivity].
  - destruct s as [|c cs].
    + split; [discriminate | intros [b H]; discriminate].
    + rewrite andb_true_iff, N.eqb_eq, IH. split.
      * intros [-> [b ->]]. now exists b.
      * intros [b [= -> ->]]. split; [reflexivity | now exists b].
Qed.

Lemma contains_spec (filepath name : pystr) :
  contains filepath name = true <-> exists a b, filepath = a ++ name ++ b.
Proof.
  induction filepath as [|c r IH].
  - simpl. rewrite orb_false_r, startswith_spec. split.
    + intros [b H]. now exists [], b.
    + intros (a & b & H). destruct a as [|x a]; [now exists b | discriminate].
  - cbn [contains]. rewrite orb_true_iff, startswith_spec, IH. split.
    + intros [[b H]|(a & b & ->)].
      * now exists [], b.
      * now exists (c :: a), b.
    + intros (a & b & H). destruct a as [|x a].
      * left. now exists b.
      * right. injection H as _ ->. now exists a, b.
Qed.

(** X16: [DELETE /file/<filepath>] refuses, with the message
    [Cannot remove <filepath>] and without calling [os.remove], exactly
    the paths in which one of the seven names of [HIDE] occurs anywhere;
    any other path is handed to [os.remove] as it is, whose failure is
    reported and whose success is the only change. *)
Theorem delete_file_refuses_iff (FS : Type)
  (os_remove : pystr -> FS -> option FS) (filepath : pystr) (fs : FS) :
  ((exists name a b, In name HIDE /\ filepath = a ++ name ++ b)
   <-> delete_file os_remove filepath fs
       = (Raise (Refused (CANNOT_REMOVE ++ filepath)), fs))
  /\ (~ (exists name a b, In name HIDE /\ filepath = a ++ name ++ b)
      -> delete_file os_remove filepath fs
         = match os_remove filepath fs with
           | Some fs' => (Ok tt, fs')
           | None => (Raise RemoveFailed, fs)
           end).
Proof.
  assert (Hiff : existsb (fun name => contains filepath name) HIDE = true
                 <-> exists name a b, In name HIDE /\ filepath = a ++ name ++ b).
  { rewrite existsb_exists. split.
    - intros (name & Hin & Hc). apply contains_spec in Hc.
      destruct Hc as (a & b & E). now exists name, a, b.
    - intros (name & a & b & Hin & E). exists name. split; [exact Hin|].
      apply contains_spec. now exists a, b. }
  unfold delete_file.
  destruct (existsb (fun name => contains filepath name) HIDE) eqn:E.
  - split; [split; [reflexivity | intros _; now apply Hiff]|].
    intros Hn. exfalso. apply Hn. now apply Hiff.
  - split; [|reflexivity]. split.
    + intros H. apply Hiff in H. discriminate.
    + destruct (os_remove filepath fs); discriminate.
Qed.

(** ** Listing the files *)

Lemma tree_induction (P : tree -> Prop) :
  (forall files dirs, Forall (fun d => P (snd d)) dirs -> P (Dir files dirs)) ->
  forall t, P t.
Proof.
  intros H. fix IH 1. intros [files dirs]. apply H.
  induction dirs as [|[d sub] dirs IHd]; constructor; [apply IH | exact IHd].
Qed.

Lemma walk_unfold (root : pystr) (files : list (pystr * option N))
  (dirs : list (pystr * tree)) :
  walk root (Dir files dirs)
  = match list_files root files with
    | Raise e => Raise e
    | Ok here => match walk_dirs root dirs with
                 | Ok below => Ok (here ++ below)
                 | Raise e => Raise e
                 end
    end.
Proof.
  cbn [walk]. destruct (list_files root files) as [here|e]; [|reflexivity].
  match goal with
  | |- match ?a with _ => _ end = match ?b with _ => _ end =>
      assert (E : a = b); [|now rewrite E]
  end.
  induction dirs as [|[d sub] dirs IH]; [reflexivity|].
  cbn [walk_dirs]. rewrite <- IH. reflexivity.
Qed.

(** The files of one directory: what is listed, and when it fails. *)
Lemma list_files_spec (root : pystr) (files : list (pystr * option N)) :
  match list_files root files with
  | Ok l =>
      (forall p n, In (p, n) l
                   <-> exists name, In (name, Some n) files
                                    /\ in_hide name = false
                                    /\ hidden name = false
                                    /\ p = forward_slashes (path_join root name))
      /\ ~ (exists name, In (name, None) files
                         /\ in_hide name = false /\ hidden name = false)
  | Raise e =>
      e = IOError
      /\ exists name, In (name, None) files
                      /\ in_hide name = false /\ hidden name = false
  end.
Proof.
  induction files as [|[name size] files IH]; cbn [list_files].
  - split.
    + intros p n. split; [intros [] | intros (x & [] & _)].
    + intros (x & [] & _).
  - destruct (in_hide name) eqn:Eh; cbn [negb andb].
    { destruct (list_files root files) as [l|e].
      - destruct IH as [IH1 IH2]. split.
        + intros p n. rewrite IH1. split.
          * intros (x & Hx & R). exists x. split; [now right | exact R].
          * intros (x & [[= -> _]|Hx] & Hh & R); [congruence|].
            now exists x.
        + intros (x & [[= -> _]|Hx] & Hh & R); [congruence|].
          apply IH2. now exists x.
      - destruct IH as [-> (x & Hx & R)]. split; [reflexivity|].
        exists x. split; [now right | exact R]. }
    destruct (hidden name) eqn:Ed; cbn [negb].
    { destruct (list_files root files) as [l|e].
      - destruct IH as [IH1 IH2]. split.
        + intros p n. rewrite IH1. split.
          * intros (x & Hx & R). exists x. split; [now right | exact R].
          * intros (x & [[= -> _]|Hx] & Hh & Hd & R); [congruence|].
            now exists x.
        + intros (x & [[= -> _]|Hx] & Hh & Hd); [congruence|].
          apply IH2. now exists x.
      - destruct IH as [-> (x & Hx & R)]. split; [reflexivity|].
        exists x. split; [now right | exact R]. }
    destruct size as [n0|].
    + destruct (list_files root files) as [l|e].
      * destruct IH as [IH1 IH2]. split.
        -- intros p n. cbn [In]. rewrite IH1. split.
           ++ intros [[= <- <-]|(x & Hx & R)].
              ** exists name. repeat split; auto; now left.
              ** exists x. split; [now right | exact R].
           ++ intros (x & [[= -> ->]|Hx] & Hh & Hd & ->).
              ** now left.
              ** right. now exists x.
        -- intros (x & [H|Hx] & R); [discriminate|].
           apply IH2. now exists x.
      * destruct IH as [-> (x & Hx & R)]. split; [reflexivity|].
        exists x. split; [now right | exact R].
    + split; [reflexivity|]. exists name. repeat split; auto; now left.
Qed.

Lemma visible_inv (files : list (pystr * option N))
  (dirs : list (pystr * tree)) (ds : list pystr) (name : pystr)
  (size : option N) :
  visible (Dir files dirs) ds name size
  <-> (ds = [] /\ In (name, size) files
       /\ in_hide name = false /\ hidden name = false)
      \/ (exists d sub ds', ds = d :: ds' /\ In (d, sub) dirs
                            /\ hidden d = false /\ visible sub ds' name size).
Proof.
  split.
  - intros H. inversion H; subst.
    + left. auto.
    + right. eexists. eexists. eexists. eauto.
  - intros [(-> & H1 & H2 & H3)|(d & sub & ds' & -> & H1 & H2 & H3)].
    + now constructor.
    + econstructor; eassumption.
Qed.

Lemma walk_dirs_spec (dirs : list (pystr * tree)) :
  Forall (fun d => walk_lists_visible (snd d)) dirs ->
  forall root,
    match walk_dirs root dirs with
    | Ok l =>
        (forall p n, In (p, n) l
                     <-> exists d sub ds name,
                           In (d, sub) dirs /\ hidden d = false
                           /\ visible sub ds name (Some n)
                           /\ p = listed_path root (d :: ds) name)
        /\ ~ (exists d sub ds name,
                In (d, sub) dirs /\ hidden d = false
                /\ visible sub ds name None)
    | Raise e =>
        e = IOError
        /\ exists d sub ds name,
             In (d, sub) dirs /\ hidden d = false /\ visible sub ds name None
    end.
Proof.
  intros Hall root. induction dirs as [|[d sub] dirs IH]; cbn [walk_dirs].
  - split.
    + intros p n. split; [intros [] | intros (? & ? & ? & ? & [] & _)].
    + intros (? & ? & ? & ? & [] & _).
  - inversion Hall as [|? ? Hsub Hrest]; subst. specialize (IH Hrest).
    simpl in Hsub.
    destruct (hidden d) eqn:Ed.
    + destruct (walk_dirs root dirs) as [l|e].
      * destruct IH as [IH1 IH2]. split.
        -- intros p n. rewrite IH1. split.
           ++ intros (d0 & s0 & ds & name & Hin & R).
              exists d0, s0, ds, name. split; [now right | exact R].
           ++ intros (d0 & s0 & ds & name & [[= -> ->]|Hin] & Hh & R);
                [congruence|].
              exists d0, s0, ds, name. tauto.
        -- intros (d0 & s0 & ds & name & [[= -> ->]|Hin] & Hh & R);
             [congruence|].
           apply IH2. exists d0, s0, ds, name. tauto.
      * destruct IH as [-> (d0 & s0 & ds & name & Hin & R)].
        split; [reflexivity|].
        exists d0, s0, ds, name. split; [now right | exact R].
    + specialize (Hsub (path_join root d)).
      destruct (walk (path_join root d) sub) as [l0|e0].
      * destruct Hsub as [S1 S2].
        destruct (walk_dirs root dirs) as [l|e].
        -- destruct IH as [IH1 IH2]. split.
           ++ intros p n. rewrite in_app_iff, S1, IH1. split.
              ** intros [(ds & name & Hv & ->)|(d0 & s0 & ds & name & Hin & R)].
                 --- exists d, sub, ds, name. repeat split; auto. now left.
                 --- exists d0, s0, ds, name. split; [now right | exact R].
              ** intros (d0 & s0 & ds & name & [[= -> ->]|Hin] & Hh & Hv & ->).
                 --- left. now exists ds, name.
                 --- right. exists d0, s0, ds, name. tauto.
           ++ intros (d0 & s0 & ds & name & [[= -> ->]|Hin] & Hh & Hv).
              ** apply S2. now exists ds, name.
              ** apply IH2. exists d0, s0, ds, name. tauto.
        -- destruct IH as [-> (d0 & s0 & ds & name & Hin & R)].
           split; [reflexivity|].
           exists d0, s0, ds, name. split; [now right | exact R].
      * destruct Hsub as [-> (ds & name & Hv)]. split; [reflexivity|].
        exists d, sub, ds, name. repeat split; auto. now left.
Qed.

Lemma walk_spec (t : tree) : walk_lists_visible t.
Proof.
  induction t as [files dirs IH] using tree_induction.
  intros root. rewrite walk_unfold.
  pose proof (list_files_spec root files) as Hf.
  pose proof (walk_dirs_spec IH root) as Hd.
  destruct (list_files root files) as [here|e].
  - destruct Hf as [F1 F2].
    destruct (walk_dirs root dirs) as [below|e].
    + destruct Hd as [D1 D2]. split.
      * intros p n. rewrite in_app_iff, F1, D1. split.
        -- intros [(name & Hin & Hh & Hdot & ->)
                  |(d & sub & ds & name & Hin & Hh & Hv & ->)].
           ++ exists [], name. split; [now constructor | reflexivity].
           ++ exists (d :: ds), name.
              split; [econstructor; eassumption | reflexivity].
        -- intros (ds & name & Hv & ->). apply visible_inv in Hv.
           destruct Hv as [(-> & H1 & H2 & H3)
                          |(d & sub & ds' & -> & H1 & H2 & H3)].
           ++ left. now exists name.
           ++ right. now exists d, sub, ds', name.
      * intros (ds & name & Hv). apply visible_inv in Hv.
        destruct Hv as [(-> & H1 & H2 & H3)
                       |(d & sub & ds' & -> & H1 & H2 & H3)].
        -- apply F2. now exists name.
        -- apply D2. now exists d, sub, ds', name.
    + destruct Hd as [-> (d & sub & ds & name & Hin & Hh & Hv)].
      split; [reflexivity|].
      exists (d :: ds), name. econstructor; eassumption.
  - destruct Hf as [-> (name & Hin & Hh & Hdot)]. split; [reflexivity|].
    exists [], name. now constructor.
Qed.

(** X17: when [GET /list] answers, its entries are exactly the files that
    can be reached from ['.'] through directories whose names do not start
    with a dot, that do not start with a dot themselves and are none of the
    seven names of [HIDE], each with its size and with the path
    [os.path.join] builds, back-slashes replaced. *)
Theorem get_list_lists_visible (t : tree) (answer : json)
  (Hok : get_list t = Ok answer) :
  exists flist,
    answer = JArr (map list_entry flist)
    /\ forall p n, In (p, n) flist
                   <-> exists ds name, visible t ds name (Some n)
                                       /\ p = listed_path DOT ds name.
Proof.
  unfold get_list in Hok. pose proof (walk_spec t DOT) as Hw.
  destruct (walk DOT t) as [flist|e]; [|discriminate].
  injection Hok as <-. exists flist. split; [reflexivity | apply Hw].
Qed.

Lemma get_list_lists_visible_witness :
  exists flist,
    JArr [list_entry (py "./ios.bin", 4096%N);
          list_entry (py "./configs/r1.cfg", 300%N)]
    = JArr (map list_entry flist)
    /\ forall p n, In (p, n) flist
                   <-> exists ds name, visible sample_tree ds name (Some n)
                                       /\ p = listed_path DOT ds name.
Proof.
  apply (@get_list_lists_visible sample_tree). reflexivity.
Defined.

(** X18: [GET /list] fails exactly when the size of some visible file
    cannot be read, and then with the [OSError] of [os.path.getsize], which
    nothing catches; a file that is hidden, or lies under a hidden
    directory, is never asked for its size. *)
Theorem get_list_fails_iff (t : tree) :
  (exists e, get_list t = Raise e)
  <-> exists ds name, visible t ds name None.
Proof.
  unfold get_list. pose proof (walk_spec t DOT) as Hw.
  destruct (walk DOT t) as [flist|e].
  - destruct Hw as [_ Hn]. split; [intros [e H]; discriminate|].
    intros H. contradiction.
  - destruct Hw as [-> Hv]. split; [intros _; exact Hv|].
    intros _. now exists IOError.
Qed.

(** ** The status log *)

(** X19: the entry that is logged carries the address of the client under
    [ip] and the time of the server under [time], whatever the client sent
    under these two keys; every other key of the client's object is kept
    with its value. *)
Theorem stamp_overrides_ip_and_time (req : log_request) (o : odict json) :
  od_get IP (stamp req o) = Some (JStr (remote_addr req))
  /\ od_get TIME (stamp req o) = Some (JStr (now req))
  /\ (forall k, k <> IP -> k <> TIME -> od_get k (stamp req o) = od_get k o)
  /\ (NoDup (od_keys o) -> NoDup (od_keys (stamp req o))).
Proof.
  unfold stamp. repeat split.
  - rewrite od_get_set_other by discriminate. apply od_get_set_same.
  - apply od_get_set_same.
  - intros k H1 H2. now rewrite !od_get_set_other by assumption.
  - intros ND. now apply od_set_NoDup, od_set_NoDup.
Qed.

(** X20: whatever the request and the file, [GET /log] leaves the file as
    it was, or answers a newline after replacing the list it read (empty
    when there was no file) by that list with one more element at the end,
    the stamped object of the request. *)
Theorem log_get_appends_or_keeps (req : log_request) (w : log_world) :
  snd (log_get req w) = w
  \/ exists l o,
       load_log w = Ok (JArr l)
       /\ msg req = Some (Document (JObj o))
       /\ fst (log_get req w) = Ok Newline
       /\ status_json (snd (log_get req w))
          = Some (Document (JArr (l ++ [JObj (stamp req o)]))).
Proof.
  unfold log_get.
  destruct (load_log w) as [logbuf|t] eqn:El; [|now left].
  destruct (msg req) as [[|m]|] eqn:Em; try (now left).
  destruct m as [| | | | | |o]; try (now left).
  destruct logbuf as [| | | | |l|]; try (now left).
  destruct (log_writable w); [|now left].
  right. exists l, o. repeat split.
Qed.

(** X21: after an object was logged, a [GET /log] without [msg] answers the
    list read before with the stamped object at its end. *)
Theorem log_get_append_then_read
  (req req' : log_request) (w : log_world) (l : list json) (o : odict json)
  (Hlog : load_log w = Ok (JArr l))
  (Hmsg : msg req = Some (Document (JObj o)))
  (Hwrite : log_writable w = true)
  (Hread : log_readable w = true)
  (Hnone : msg req' = None) :
  fst (log_get req w) = Ok Newline
  /\ fst (log_get req' (snd (log_get req w)))
     = Ok (Buffer (JArr (l ++ [JObj (stamp req o)])))
  /\ snd (log_get req' (snd (log_get req w))) = snd (log_get req w).
Proof.
  destruct w as [sj rd wr]. cbn [log_readable log_writable] in *. subst rd wr.
  assert (E : log_get req {| status_json := sj; log_readable := true;
                             log_writable := true |}
              = (Ok Newline,
                 {| status_json :=
                      Some (Document (JArr (l ++ [JObj (stamp req o)])));
                    log_readable := true; log_writable := true |})).
  { unfold log_get. now rewrite Hlog, Hmsg. }
  rewrite E. cbn [fst snd]. unfold log_get, load_log.
  cbn [status_json log_readable]. rewrite Hnone. repeat split.
Qed.

Lemma log_get_append_then_read_witness :
  let w := {| status_json := None; log_readable := true;
              log_writable := true |} in
  let req := {| msg := Some (Document (JObj [(py "status", JStr (py "done"));
                                              (IP, JStr (py "1.1.1.1"))]));
                remote_addr := py "10.0.0.7"; now := py "01/02/20 03:04:05" |} in
  let req' := {| msg := None; remote_addr := py "10.0.0.9";
                 now := py "01/02/20 03:05:00" |} in
  fst (log_get req' (snd (log_get req w)))
  = Ok (Buffer (JArr [JObj [(py "status", JStr (py "done"));
                            (IP, JStr (py "10.0.0.7"));
                            (TIME, JStr (py "01/02/20 03:04:05"))]])).
Proof.
  intros w req req'.
  destruct (@log_get_append_then_read req req' w []
              [(py "status", JStr (py "done")); (IP, JStr (py "1.1.1.1"))]
              eq_refl eq_refl eq_refl eq_refl eq_refl) as (_ & H & _).
  exact H.
Defined.

(** X22: after a [DELETE /log] on a writable and readable file, whatever
    the file held (even text that is no JSON), a [GET /log] without [msg]
    answers the empty list, and one with an object starts a new list with
    it. *)
Theorem log_delete_then_get
  (req : log_request) (w : log_world)
  (Hwrite : log_writable w = true)
  (Hread : log_readable w = true) :
  fst (log_delete w) = Ok Nothing
  /\ (msg req = None ->
      fst (log_get req (snd (log_delete w))) = Ok (Buffer (JArr [])))
  /\ (forall o, msg req = Some (Document (JObj o)) ->
        status_json (snd (log_get req (snd (log_delete w))))
        = Some (Document (JArr [JObj (stamp req o)]))).
Proof.
  destruct w as [sj rd wr]. cbn [log_readable log_writable] in *. subst rd wr.
  unfold log_delete. cbn [log_writable log_readable fst snd].
  split; [reflexivity|]. split.
  - intros Hm. unfold log_get, load_log. cbn [status_json log_readable].
    now rewrite Hm.
  - intros o Hm. unfold log_get, load_log.
    cbn [status_json log_readable]. rewrite Hm.
    cbn [log_writable snd status_json app]. reflexivity.
Qed.

Lemma log_delete_then_get_witness :
  let w := {| status_json := Some Malformed; log_readable := true;
              log_writable := true |} in
  fst (log_get {| msg := None; remote_addr := py "10.0.0.7";
                  now := py "01/02/20 03:04:05" |}
               (snd (log_delete w)))
  = Ok (Buffer (JArr [])).
Proof.
  intros w.
  destruct (@log_delete_then_get
              {| msg := None; remote_addr := py "10.0.0.7";
                 now := py "01/02/20 03:04:05" |} w eq_refl eq_refl)
    as (_ & H & _).
  now apply H.
Defined.

(** X23: the content of [status.json] is not checked: when it is JSON but
    not a list, a [GET /log] without [msg] answers it as it is, and one
    with an object raises [AttributeError] at [append], which nothing
    catches; a [msg] that is JSON but no object is answered by the 500
    response [Expected JSON object]; the file stays as it was in all three
    cases. *)
Theorem log_get_unchecked_buffer
  (req : log_request) (w : log_world) (logbuf : json)
  (Hfile : status_json w = Some (Document logbuf))
  (Hread : log_readable w = true) :
  (msg req = None -> log_get req w = (Ok (Buffer logbuf), w))
  /\ (forall o, msg req = Some (Document (JObj o)) ->
        (forall l, logbuf <> JArr l) ->
        log_get req w = (Raise (Escapes AttributeError), w))
  /\ (forall m, msg req = Some (Document m) -> is_odict m = false ->
        log_get req w = (Raise (Error500 ExpectedObject), w)).
Proof.
  unfold log_get, load_log. rewrite Hfile, Hread. repeat split.
  - now intros ->.
  - intros o -> Hl. destruct logbuf; try reflexivity. now destruct (Hl l).
  - intros m -> Hm. destruct m; try reflexivity. discriminate.
Qed.

Lemma log_get_unchecked_buffer_witness :
  let w := {| status_json := Some (Document (JObj [(py "a", JInt 1)]));
              log_readable := true; log_writable := true |} in
  log_get {| msg := Some (Document (JObj [(py "status", JStr (py "done"))]));
             remote_addr := py "10.0.0.7"; now := py "01/02/20 03:04:05" |} w
  = (Raise (Escapes AttributeError), w).
Proof.
  intros w.
  destruct (@log_get_unchecked_buffer
              {| msg := Some (Document (JObj [(py "status", JStr (py "done"))]));
                 remote_addr := py "10.0.0.7"; now := py "01/02/20 03:04:05" |}
              w (JObj [(py "a", JInt 1)]) eq_refl eq_refl) as (_ & H & _).
  apply (H [(py "status", JStr (py "done"))] eq_refl). discriminate.
Defined.
